(** * sshsyrup: the SSH front end of the honeypot (ssh.go) and its shell loop

    A shallow embedding of the password policy, of the channel-open
    dispatcher, of the per-channel request dispatcher and of the
    interactive shell loop, with the properties of the design document
    checked against them. *)

From Stdlib Require Import ZArith Lia Bool Ascii String List.
From Stdlib.Strings Require Import Byte.
From stdpp Require Import base option list gmap strings pretty.

Local Open Scope string_scope.
Local Open Scope list_scope.
Local Open Scope Z_scope.

(** ** Go values *)

(** Go's [int] is 64 bits wide on the platforms the server runs on;
    arithmetic wraps around. *)
Definition wrap_int (z : Z) : Z := (z + 2 ^ 63) mod 2 ^ 64 - 2 ^ 63.

(** Go strings and byte slices are both byte sequences: a [string] here
    is a sequence of bytes (one [ascii] each), a [[]byte] a [list byte],
    and the conversion [string(b)] is [string_of_list_byte]. *)
Module Go.

(** [strings.Split(s, sep)] for a one-byte separator: the pieces between
    consecutive separators, never an empty list. *)
Fixpoint Split (s : string) (sep : ascii) : list string :=
  match s with
  | EmptyString => [EmptyString]
  | String c s' =>
      if Ascii.eqb c sep then EmptyString :: Split s' sep
      else match Split s' sep with
           | [] => [String c EmptyString]
           | w :: ws => String c w :: ws
           end
  end.

(** [strings.SplitN(s, sep, 2)]: cut at the first separator only. *)
Fixpoint SplitN2 (s : string) (sep : ascii) : list string :=
  match s with
  | EmptyString => [EmptyString]
  | String c s' =>
      if Ascii.eqb c sep then [EmptyString; s']
      else match SplitN2 s' sep with
           | [] => [String c EmptyString]
           | w :: ws => String c w :: ws
           end
  end.

(** [strings.HasPrefix(s, prefix)]. *)
Definition HasPrefix (s pre : string) : bool := String.prefix pre s.

(** [a[0]] and [a[1:]] of a slice; indexing an empty slice panics. *)
Definition index0 (a : list string) : option string := head a.
Definition from1 (a : list string) : list string := tail a.

(** [path.Base]: the last element of a slash-separated path, after
    trailing slashes are removed. *)
Fixpoint strip_trailing_slashes_rev (r : list ascii) : list ascii :=
  match r with
  | c :: r' => if Ascii.eqb c "/" then strip_trailing_slashes_rev r' else r
  | [] => []
  end.

Definition strip_trailing_slashes (p : string) : string :=
  string_of_list_ascii
    (rev (strip_trailing_slashes_rev (rev (list_ascii_of_string p)))).

Definition Base (p : string) : string :=
  if String.eqb p "" then "."
  else
    let p1 := strip_trailing_slashes p in
    let p2 := List.last (Split p1 "/") "" in
    if String.eqb p2 "" then "/" else p2.

(** [strconv.Itoa] and the [%v] verb on an integer. *)
Definition Itoa (n : Z) : string := pretty n.

(** The conversion [string(n)] of an integer [n]: the UTF-8 encoding of
    the code point [n], or of U+FFFD when [n] is not a valid code point.
    It is not the decimal representation. *)
Definition chr (z : Z) : ascii := ascii_of_N (Z.to_N z).

Definition utf8_encode (r : Z) : string :=
  if r <? 128 then String (chr r) ""
  else if r <? 2048 then
    String (chr (Z.lor 192 (Z.shiftr r 6)))
      (String (chr (Z.lor 128 (Z.land r 63))) "")
  else if r <? 65536 then
    String (chr (Z.lor 224 (Z.shiftr r 12)))
      (String (chr (Z.lor 128 (Z.land (Z.shiftr r 6) 63)))
         (String (chr (Z.lor 128 (Z.land r 63))) ""))
  else
    String (chr (Z.lor 240 (Z.shiftr r 18)))
      (String (chr (Z.lor 128 (Z.land (Z.shiftr r 12) 63)))
         (String (chr (Z.lor 128 (Z.land (Z.shiftr r 6) 63)))
            (String (chr (Z.lor 128 (Z.land r 63))) ""))).

Definition valid_rune (r : Z) : bool :=
  (0 <=? r) && (r <=? 1114111) && negb ((55296 <=? r) && (r <=? 57343)).

Definition string_of_int (n : Z) : string :=
  if valid_rune n then utf8_encode n else utf8_encode 65533.

(** [strings.TrimSpace]: leading and trailing runes for which
    [unicode.IsSpace] holds are removed.  Each such rune has a UTF-8
    encoding that starts with a lead byte, so testing a rune at either end
    is testing for its encoding there. *)
Definition space_runes : list Z :=
  [9; 10; 11; 12; 13; 32; 133; 160; 5760; 8192; 8193; 8194; 8195; 8196;
   8197; 8198; 8199; 8200; 8201; 8202; 8232; 8233; 8239; 8287; 12288].

Fixpoint drop_prefix (pre l : list ascii) : option (list ascii) :=
  match pre, l with
  | [], _ => Some l
  | p :: pre', c :: l' => if Ascii.eqb p c then drop_prefix pre' l' else None
  | _ :: _, [] => None
  end.

Fixpoint drop_any (pats : list (list ascii)) (l : list ascii) : option (list ascii) :=
  match pats with
  | [] => None
  | p :: pats' =>
      match drop_prefix p l with
      | Some l' => Some l'
      | None => drop_any pats' l
      end
  end.

Fixpoint trim_front (fuel : nat) (pats : list (list ascii)) (l : list ascii) : list ascii :=
  match fuel with
  | O => l
  | S fuel' =>
      match drop_any pats l with
      | Some l' => trim_front fuel' pats l'
      | None => l
      end
  end.

Definition space_encodings : list (list ascii) :=
  map (fun r => list_ascii_of_string (utf8_encode r)) space_runes.

Definition TrimSpace (s : string) : string :=
  let l := list_ascii_of_string s in
  let l1 := trim_front (length l) space_encodings l in
  let r1 := trim_front (length l1) (map (@rev ascii) space_encodings) (rev l1) in
  string_of_list_ascii (rev r1).

End Go.

(** ** SSH wire format: [ssh.Unmarshal] on the request structs

    The decoder of golang.org/x/crypto/ssh walks the fields of the
    destination struct in order, reads each from the front of the data
    and stores it at once; it stops with an error at the first field that
    cannot be read, on empty data, and on data left over after the last
    field.  Fields stored before the error keep their decoded values. *)
Module Wire.

Definition byteZ (b : byte) : Z := Z.of_N (Byte.to_N b).

(** [parseUint32]: four bytes, big endian. *)
Definition parseUint32 (data : list byte) : option (Z * list byte) :=
  match data with
  | b0 :: b1 :: b2 :: b3 :: rest =>
      Some (Z.lor (Z.shiftl (byteZ b0) 24)
              (Z.lor (Z.shiftl (byteZ b1) 16)
                 (Z.lor (Z.shiftl (byteZ b2) 8) (byteZ b3))),
            rest)
  | _ => None
  end.

(** [parseString]: a uint32 length, then that many bytes. *)
Definition parseString (data : list byte) : option (string * list byte) :=
  match parseUint32 data with
  | None => None
  | Some (n, rest) =>
      if Z.of_nat (length rest) <? n then None
      else Some (string_of_list_byte (take (Z.to_nat n) rest),
                 drop (Z.to_nat n) rest)
  end.

(** The encoders matching the two parsers ([ssh.Marshal] on a uint32 and
    on a string), used to write payloads down. *)
Definition zbyte (z : Z) : byte := byte_of_ascii (ascii_of_N (Z.to_N (z mod 256))).

Definition putUint32 (n : Z) : list byte :=
  [zbyte (Z.shiftr n 24); zbyte (Z.shiftr n 16); zbyte (Z.shiftr n 8); zbyte n].

Definition putString (s : string) : list byte :=
  putUint32 (Z.of_nat (String.length s)) ++ list_byte_of_string s.

(** Whether the decoder is at the end of the data after the last field. *)
Definition at_end (data : list byte) : bool :=
  match data with [] => true | _ => false end.

(** A struct field as the reflective walk sees it: its kind and the
    store into the destination. *)
Inductive field (S : Type) : Type :=
| FString (set : string -> S -> S)
| FUint32 (set : Z -> S -> S).
Arguments FString {S} set.
Arguments FUint32 {S} set.

Fixpoint decode_fields {S : Type} (fs : list (field S)) (data : list byte)
    (out : S) : S * bool :=
  match fs with
  | [] => (out, at_end data)
  | FString set :: fs' =>
      match parseString data with
      | None => (out, false)
      | Some (v, rest) => decode_fields fs' rest (set v out)
      end
  | FUint32 set :: fs' =>
      match parseUint32 data with
      | None => (out, false)
      | Some (v, rest) => decode_fields fs' rest (set v out)
      end
  end.

(** [ssh.Unmarshal(data, &out)]: the struct as the call leaves it, and
    whether the returned error is nil. *)
Definition Unmarshal {S : Type} (fs : list (field S)) (data : list byte)
    (out : S) : S * bool :=
  match data with
  | [] => (out, false)
  | _ => decode_fields fs data out
  end.

End Wire.

(** ** The request structs of ssh.go *)

Record envRequest : Type := mkEnvRequest {
  env_Name : string;
  env_Value : string
}.

Record ptyRequest : Type := mkPtyRequest {
  pty_Term : string;
  pty_Width : Z;
  pty_Height : Z;
  pty_PWidth : Z;
  pty_PHeight : Z;
  pty_Modes : string
}.

Record winChgRequest : Type := mkWinChgRequest {
  win_Width : Z;
  win_Height : Z
}.

Record tunnelRequest : Type := mkTunnelRequest {
  RemoteHost : string;
  RemotePort : Z;
  LocalHost : string;
  LocalPort : Z
}.

(** The zero values ([var r T], [&T{}]). *)
Definition envRequest_zero : envRequest := mkEnvRequest "" "".
Definition ptyRequest_zero : ptyRequest := mkPtyRequest "" 0 0 0 0 "".
Definition winChgRequest_zero : winChgRequest := mkWinChgRequest 0 0.
Definition tunnelRequest_zero : tunnelRequest := mkTunnelRequest "" 0 "" 0.

Definition envRequest_fields : list (Wire.field envRequest) :=
  [ Wire.FString (fun v r => mkEnvRequest v (env_Value r));
    Wire.FString (fun v r => mkEnvRequest (env_Name r) v) ].

Definition ptyRequest_fields : list (Wire.field ptyRequest) :=
  [ Wire.FString (fun v r => mkPtyRequest v (pty_Width r) (pty_Height r)
                               (pty_PWidth r) (pty_PHeight r) (pty_Modes r));
    Wire.FUint32 (fun v r => mkPtyRequest (pty_Term r) v (pty_Height r)
                               (pty_PWidth r) (pty_PHeight r) (pty_Modes r));
    Wire.FUint32 (fun v r => mkPtyRequest (pty_Term r) (pty_Width r) v
                               (pty_PWidth r) (pty_PHeight r) (pty_Modes r));
    Wire.FUint32 (fun v r => mkPtyRequest (pty_Term r) (pty_Width r) (pty_Height r)
                               v (pty_PHeight r) (pty_Modes r));
    Wire.FUint32 (fun v r => mkPtyRequest (pty_Term r) (pty_Width r) (pty_Height r)
                               (pty_PWidth r) v (pty_Modes r));
    Wire.FString (fun v r => mkPtyRequest (pty_Term r) (pty_Width r) (pty_Height r)
                               (pty_PWidth r) (pty_PHeight r) v) ].

Definition winChgRequest_fields : list (Wire.field winChgRequest) :=
  [ Wire.FUint32 (fun v r => mkWinChgRequest v (win_Height r));
    Wire.FUint32 (fun v r => mkWinChgRequest (win_Width r) v) ].

Definition tunnelRequest_fields : list (Wire.field tunnelRequest) :=
  [ Wire.FString (fun v r => mkTunnelRequest v (RemotePort r) (LocalHost r) (LocalPort r));
    Wire.FUint32 (fun v r => mkTunnelRequest (RemoteHost r) v (LocalHost r) (LocalPort r));
    Wire.FString (fun v r => mkTunnelRequest (RemoteHost r) (RemotePort r) v (LocalPort r));
    Wire.FUint32 (fun v r => mkTunnelRequest (RemoteHost r) (RemotePort r) (LocalHost r) v) ].

(** ** Configuration (the viper keys read by the code) *)

(** A value held in a [map[string]interface{}]: the code only ever asks
    for strings, everything else (numbers, nested tables) is [IOther]. *)
Inductive iface : Type :=
| IString (s : string)
| IOther.

Record Config : Type := mkConfig {
  allowRandomUser : bool;                 (* server.allowRandomUser *)
  allowRetryLogin : bool;                 (* server.allowRetryLogin *)
  hostname : string;                      (* server.hostname *)
  portRedirection : string;               (* server.portRedirection *)
  portRedirectionMap : gmap string iface; (* server.portRedirectionMap *)
  sessionLogFmt : string                  (* server.sessionLogFmt *)
}.

(** ** Password authentication policy: [PasswordChallenge] *)

Module Auth.

(** What the callback hands back to the SSH library: the permission set
    (carrying the extension permit-agent-forwarding=yes) with a nil error,
    or, after sleeping server.retryDelay, a nil permission set with the
    error "password rejected". *)
Inductive outcome : Type :=
| Accept (extensions : list (string * string))
| RejectAfterDelay.

Definition successPerm : list (string * string) :=
  [("permit-agent-forwarding", "yes")].

Section Policy.

(** [os.IsUserExist]: the stored credential and whether the user is
    known.  The user table is loaded at start-up from the uid mapping
    file. *)
Variable IsUserExist : string -> string * bool.
Variable cfg : Config.

(** The three-way test of the callback, as the [if]/[else if] chain
    evaluates it ([&&] binds tighter than [||]). *)
Definition exact_match (user pass : string) : bool :=
  let '(stpass, userExists) := IsUserExist user in
  userExists && String.eqb stpass pass.

Definition deception_test (user pass : string) : bool :=
  let '(stpass, userExists) := IsUserExist user in
  (userExists && (negb (String.eqb stpass pass) || String.eqb stpass "*"))
  || allowRandomUser cfg.

(** An attempt enters the deception branch when the first test fails
    and the second succeeds. *)
Definition enters_deception (user pass : string) : bool :=
  negb (exact_match user pass) && deception_test user pass.

(** One call of the closure returned by [PasswordChallenge]: the
    captured [triesLeft] is threaded through explicitly. *)
Definition callback (triesLeft : Z) (user pass : string) : outcome * Z :=
  if exact_match user pass then (Accept successPerm, triesLeft)
  else if deception_test user pass then
    if allowRetryLogin cfg then
      if triesLeft =? 1 then (Accept successPerm, triesLeft)
      else (RejectAfterDelay, wrap_int (triesLeft - 1))
    else (Accept successPerm, triesLeft)
  else (RejectAfterDelay, triesLeft).

(** [PasswordChallenge tries] seeds the counter; the SSH library then
    calls the closure once per attempt, in order. *)
Fixpoint attempts (triesLeft : Z) (l : list (string * string)) : list outcome :=
  match l with
  | [] => []
  | (user, pass) :: l' =>
      let '(o, t') := callback triesLeft user pass in
      o :: attempts t' l'
  end.

Definition PasswordChallenge (tries : Z) (l : list (string * string)) : list outcome :=
  attempts tries l.

End Policy.

End Auth.

(** ** Channel opens: [SSHSession.handleNewConn] *)

Module Forward.

Inductive RejectionReason : Type :=
| Prohibited
| ConnectionFailed
| UnknownChannelType
| ResourceShortage.

(** A channel-open event of the session's [sshChan], with what the
    outside world answers when the code acts on it: whether
    [newChannel.Accept] succeeds and whether [net.Dial] connects. *)
Record NewChannel : Type := mkNewChannel {
  ChannelType : string;
  ExtraData : list byte;
  accept_ok : bool;
  dial_ok : bool
}.

(** What the loop body does to the outside, in program order; the
    relay goroutine's actions follow the point where it is started. *)
Inductive effect : Type :=
| Reject (reason : RejectionReason) (message : string)
| Accept
| DiscardRequests
| Dial (network host : string)
| Relay                      (* the two io.Copy goroutines *)
| GoHandleNewSession.

(** How one iteration ends: the loop goes on to the next channel, or the
    goroutine panics (nothing in [handleNewConn] or its caller recovers). *)
Inductive status : Type :=
| Next
| Panicked (message : string).

Section HandleNewConn.

Variable cfg : Config.

(** The inner [switch] on server.portRedirection. *)
Inductive resolution : Type :=
| Disabled
| Host (host : string)
| AssertionPanic (message : string).

Definition resolve (treq : tunnelRequest) : resolution :=
  let policy := portRedirection cfg in
  if String.eqb policy "disable" then Disabled
  else if String.eqb policy "map" then
    (* portMap[strconv.Itoa(int(treq.RemotePort))].(string) *)
    match portRedirectionMap cfg !! Go.Itoa (RemotePort treq) with
    | Some (IString h) => Host h
    | Some IOther =>
        AssertionPanic "interface conversion: interface {} is not string"
    | None =>
        AssertionPanic "interface conversion: interface {} is nil, not string"
    end
  else if String.eqb policy "direct" then
    Host (RemoteHost treq +:+ ":" +:+ Go.Itoa (RemotePort treq))
  else Host "".

Definition relay (ch : NewChannel) (host : string) : list effect :=
  Dial "tcp" host ::
  (if dial_ok ch then [Relay]
   else [Reject ConnectionFailed "Cannot establish connection"]).

Definition handleChannel (ch : NewChannel) : list effect * status :=
  let ty := ChannelType ch in
  if String.eqb ty "direct-tcpip" || String.eqb ty "forwarded-tcpip" then
    let '(treq, ok) :=
      Wire.Unmarshal tunnelRequest_fields (ExtraData ch) tunnelRequest_zero in
    let corrupt :=
      if ok then [] else [Reject UnknownChannelType "Corrupt payload"] in
    if String.eqb ty "forwarded-tcpip" then
      (corrupt ++ [Reject Prohibited "Port forwarding disabled"], Next)
    else
      match resolve treq with
      | Disabled =>
          (corrupt ++ [Reject Prohibited "Port forwarding disabled"], Next)
      | AssertionPanic m => (corrupt, Panicked m)
      | Host host =>
          if 0 <? Z.of_nat (String.length host) then
            (corrupt ++ [Accept]
               ++ (if accept_ok ch then []
                   else [Reject ResourceShortage "Cannot create new channel"])
               ++ [DiscardRequests] ++ relay ch host, Next)
          else
            (corrupt ++ [Reject ConnectionFailed "Malformed channel request"], Next)
      end
  else if String.eqb ty "session" then ([GoHandleNewSession], Next)
  else ([Reject UnknownChannelType "unknown channel type"], Next).

(** [for newChannel := range s.sshChan]: a panic ends the loop. *)
Fixpoint handleNewConn (chans : list NewChannel) : list effect * status :=
  match chans with
  | [] => ([], Next)
  | ch :: chans' =>
      match handleChannel ch with
      | (es, Next) =>
          let '(es', st) := handleNewConn chans' in (es ++ es', st)
      | (es, Panicked m) => (es, Panicked m)
      end
  end.

End HandleNewConn.

Definition is_reject (e : effect) : bool :=
  match e with Reject _ _ => true | _ => false end.

Definition is_dial (e : effect) : bool :=
  match e with Dial _ _ => true | _ => false end.

End Forward.

(** ** Session channels: [SSHSession.handleNewSession] and the shell loop *)

Module Channel.

(** The fabricated system a shell works on ([os.System]): the fields
    the shell code reads and writes.  Systems live in a store and are
    referred to by address, since the session and its shells share them
    ([os.NewShell(s.sys, ...)]). *)
Record System : Type := mkSystem {
  cwd : string;
  envVars : gmap string string;
  Width : Z;
  Height : Z
}.

(** A registered command ([Command.Exec(args, sys)]): its exit status
    and what it did to the system, or [None] when it panics. *)
Definition Command : Type := list string -> System -> option (Z * System).

Inductive LogHook : Type := AsciinemaHook | UMLHook | NoHook.

(** A channel request as the dispatcher reads it. *)
Record Request : Type := mkRequest {
  ReqType : string;
  Payload : list byte
}.

(** What [terminal.ReadLine] returns to the shell. *)
Inductive ReadResult : Type :=
| Line (cmd : string)
| EOF
| ReadError (message : string).   (* an error other than EOF *)

Inductive writer : Type :=
| ByDispatcher
| ByShell (id : nat).

(** Observable actions, in the order they happen. *)
Inductive effect : Type :=
| Reply (ok : bool)                          (* req.Reply(ok, nil) *)
| LogEnv (name value : string)               (* "User sends envvar" *)
| NewSystemCall (p : nat) (width height : Z) (* os.NewSystem, result at p *)
| GoShell (id : nat) (hook : LogHook)        (* go sh.HandleRequest(hook) *)
| GoSftp                                     (* go sftpSrv.HandleRequest() *)
| GoScp (args : list string)                 (* go scp.Main(args, quitSignal) *)
| CommandTable (name : string) (args : list string) (* funcMap[name] looked up *)
| ChannelWrite (data : string)               (* channel.Write *)
| TerminalWrite (id : nat) (data : string)   (* sh.terminal.Write *)
| TerminalSetSize (id : nat) (width height : Z) (* sh.terminal.SetSize *)
| QuitSend (w : writer) (n : Z)              (* quitSignal <- n completed *)
| ExitStatus (code : Z)                      (* "exit-status" request *)
| CloseChannel.

(** Where a shell goroutine stands. *)
Inductive shell_status : Type :=
| Spawned            (* started with go, terminal not built yet *)
| Reading            (* in the loop, at ReadLine *)
| Sending (n : Z)    (* blocked in termSignal <- n *)
| Finished.

Record Shell : Type := mkShell {
  sh_sys : nat;              (* sh.sys, a pointer into the systems *)
  sh_status : shell_status
}.


(** Where the dispatcher goroutine stands. *)
Inductive disp_status : Type :=
| Selecting                  (* at the select *)
| DispSending (n : Z)        (* blocked in quitSignal <- n of exec *)
| Returned                   (* left the loop *)
| DispPanicked (message : string).

Record state : Type := mkState {
  systems : list System;     (* every *os.System allocated, by address *)
  s_sys : option nat;        (* s.sys *)
  s_term : string;           (* s.term *)
  sh : option nat;           (* the dispatcher's variable sh *)
  shells : list Shell;       (* every *os.Shell created, by id *)
  quitSignal : option Z;     (* make(chan int, 1): its one slot *)
  disp : disp_status;
  trace : list effect
}.

(** A channel at the moment its dispatcher starts: the session may
    already have a context, made on another of its channels. *)
Definition fresh (sys : list System) (p : option nat) (term : string) : state :=
  mkState sys p term None [] None Selecting [].

Definition init : state := fresh [] None "".

Definition emit (es : list effect) (st : state) : state :=
  mkState (systems st) (s_sys st) (s_term st) (sh st) (shells st)
    (quitSignal st) (disp st) (trace st ++ es).

Definition set_disp (d : disp_status) (st : state) : state :=
  mkState (systems st) (s_sys st) (s_term st) (sh st) (shells st)
    (quitSignal st) d (trace st).

Definition set_systems (l : list System) (st : state) : state :=
  mkState l (s_sys st) (s_term st) (sh st) (shells st)
    (quitSignal st) (disp st) (trace st).

Definition set_session (p : option nat) (term : string) (st : state) : state :=
  mkState (systems st) p term (sh st) (shells st)
    (quitSignal st) (disp st) (trace st).

Definition set_sh (id : option nat) (l : list Shell) (st : state) : state :=
  mkState (systems st) (s_sys st) (s_term st) id l
    (quitSignal st) (disp st) (trace st).

Definition set_quit (q : option Z) (st : state) : state :=
  mkState (systems st) (s_sys st) (s_term st) (sh st) (shells st)
    q (disp st) (trace st).

Definition set_shell_status (id : nat) (s : shell_status) (st : state) : state :=
  match shells st !! id with
  | Some shobj => set_sh (sh st) (<[id := mkShell (sh_sys shobj) s]> (shells st)) st
  | None => st
  end.
Arguments set_shell_status : simpl never.

Definition LF : string := String (ascii_of_nat 10) "".
Definition CRLF : string := String (ascii_of_nat 13) LF.

(** The outcome of running a command name through the table. *)
Inductive exec_result : Type :=
| ExecOk (res : Z) (sys' : System)   (* res, nil *)
| ExecNotExist                       (* -1, os.ErrNotExist *)
| ExecPanic.

Section Dispatcher.

Variable cfg : Config.
Variable user : string.                      (* s.user *)
(** [os.NewSystem(user, hostname, fs, channel, width, height, log)]. *)
Variable NewSystem : string -> string -> Z -> Z -> System.
(** [System.Chdir(path)]: the system after the change, [None] on error. *)
Variable Chdir : string -> System -> option System.
(** The process-wide command table. *)
Variable funcMap : gmap string Command.

(** [Shell.Exec]: base name, table lookup, run. *)
Definition Exec (path : string) (args : list string) (sys : System) : exec_result :=
  let cmd := Go.Base path in
  match funcMap !! cmd with
  | Some execFunc =>
      match execFunc args sys with
      | Some (res, sys') => ExecOk res sys'
      | None => ExecPanic
      end
  | None => ExecNotExist
  end.

Definition alloc (width height : Z) (st : state) : nat * state :=
  let p := length (systems st) in
  (p, emit [NewSystemCall p width height]
        (set_systems (systems st ++ [NewSystem user (hostname cfg) width height]) st)).

Definition select_hook : LogHook :=
  if String.eqb (sessionLogFmt cfg) "asciinema" then AsciinemaHook
  else if String.eqb (sessionLogFmt cfg) "uml" then UMLHook
  else NoHook.

Definition panic (m : string) (st : state) : state := set_disp (DispPanicked m) st.

(** [quitSignal <- n] by the dispatcher, then the rest of the exec
    case: the send goes through when the slot is free, otherwise the
    dispatcher stays in the send. *)
Definition disp_send (n : Z) (st : state) : state :=
  match quitSignal st with
  | None => emit [QuitSend ByDispatcher n; Reply true] (set_quit (Some n) st)
  | Some _ => set_disp (DispSending n) st
  end.

(** [req.Payload[4:]] as a string; slicing past the end panics. *)
Definition payload_from4 (req : Request) : option string :=
  if Z.of_nat (length (Payload req)) <? 4 then None
  else Some (string_of_list_byte (drop 4 (Payload req))).

Definition on_pty_req (req : Request) (st : state) : state :=
  let '(ptyreq, ok) := Wire.Unmarshal ptyRequest_fields (Payload req) ptyRequest_zero in
  if ok then
    let '(p, st1) := alloc (pty_Width ptyreq) (pty_Height ptyreq) st in
    emit [Reply true] (set_session (Some p) (pty_Term ptyreq) st1)
  else emit [Reply false] st.

Definition on_env (req : Request) (st : state) : state :=
  let '(envReq, ok) := Wire.Unmarshal envRequest_fields (Payload req) envRequest_zero in
  if ok then emit [LogEnv (env_Name envReq) (env_Value envReq); Reply true] st
  else emit [Reply false] st.

(** The shell case.  The delay function and the construction of the
    session-log hook act on the outside only by logging; the hook is
    recorded by its kind. *)
Definition on_shell (req : Request) (st : state) : state :=
  let '(p, st1) :=
    match s_sys st with
    | Some p => (p, st)
    | None =>
        let '(p, st') := alloc 80 24 st in
        (p, set_session (Some p) (s_term st') st')
    end in
  let id := length (shells st1) in
  emit [GoShell id select_hook; Reply true]
    (set_sh (Some id) (shells st1 ++ [mkShell p Spawned]) st1).

Definition on_subsystem (req : Request) (st : state) : state :=
  match payload_from4 req with
  | None => panic "slice bounds out of range" st
  | Some subsys =>
      if String.eqb subsys "sftp" then emit [GoSftp; Reply true] st
      else emit [Reply false] st
  end.

(** [Shell.SetSize]: the system's fields first, then the terminal. *)
Definition SetSize (id : nat) (width height : Z) (st : state) : state :=
  match shells st !! id with
  | None => panic "nil pointer dereference" st
  | Some shobj =>
      match systems st !! sh_sys shobj with
      | None => panic "nil pointer dereference" st
      | Some sys =>
          let st1 :=
            set_systems (<[sh_sys shobj := mkSystem (cwd sys) (envVars sys) width height]>
                           (systems st)) st in
          match sh_status shobj with
          | Spawned => panic "nil pointer dereference" st1
          | _ => emit [TerminalSetSize id width height] st1
          end
      end
  end.

Definition on_window_change (req : Request) (st : state) : state :=
  match sh st with
  | None => st
  | Some id =>
      let '(winChg, ok) :=
        Wire.Unmarshal winChgRequest_fields (Payload req) winChgRequest_zero in
      let st1 := if ok then st else emit [Reply false] st in
      SetSize id (win_Width winChg) (win_Height winChg) st1
  end.

(** The exec case.  [sys.Exec] is the table lookup of [Shell.Exec]; a
    panic of the command is a panic of the dispatcher, which has no
    recover. *)
Definition on_exec (req : Request) (st : state) : state :=
  match payload_from4 req with
  | None => panic "slice bounds out of range" st
  | Some cmd =>
      let args := Go.Split cmd " " in
      let '(p, st1) :=
        match s_sys st with
        | None => alloc 80 24 st
        | Some p => (p, st)
        end in
      match Go.index0 args with
      | None => panic "index out of range" st1
      | Some arg0 =>
          if Go.HasPrefix arg0 "scp" then
            emit [GoScp (Go.from1 args); Reply true] st1
          else
            match systems st1 !! p with
            | None => panic "nil pointer dereference" st1
            | Some sys =>
                let st2 := emit [CommandTable (Go.Base arg0) (Go.from1 args)] st1 in
                match Exec arg0 (Go.from1 args) sys with
                | ExecPanic => panic "command panicked" st2
                | ExecOk n sys' =>
                    disp_send n (set_systems (<[p := sys']> (systems st2)) st2)
                | ExecNotExist =>
                    disp_send (-1)
                      (emit [ChannelWrite (cmd +:+ ": command not found" +:+ CRLF)] st2)
                end
            end
      end
  end.

(** The [switch req.Type] of the dispatcher. *)
Definition dispatch (req : Request) (st : state) : state :=
  let ty := ReqType req in
  if String.eqb ty "winadj@putty.projects.tartarus.org"
     || String.eqb ty "simple@putty.projects.tartarus.org" then st
  else if String.eqb ty "pty-req" then on_pty_req req st
  else if String.eqb ty "env" then on_env req st
  else if String.eqb ty "shell" then on_shell req st
  else if String.eqb ty "subsystem" then on_subsystem req st
  else if String.eqb ty "window-change" then on_window_change req st
  else if String.eqb ty "exec" then on_exec req st
  else st.

(** [closeChannel(channel, ret)], deferred when the quit signal is read. *)
Definition closeChannel (ret : Z) (st : state) : state :=
  emit [ExitStatus (ret mod 2 ^ 32); CloseChannel] st.

(** [sh.termSignal <- n] by shell [id], after which the goroutine ends. *)
Definition shell_send (id : nat) (n : Z) (st : state) : state :=
  match quitSignal st with
  | None =>
      emit [QuitSend (ByShell id) n]
        (set_shell_status id Finished (set_quit (Some n) st))
  | Some _ => set_shell_status id (Sending n) st
  end.

(** One round of the shell's [for] loop, from what [ReadLine] returned.
    A panic inside the round is recovered by the deferred function, which
    sends 1 on the signal. *)
Definition shell_round (id : nat) (shobj : Shell) (r : ReadResult) (st : state) : state :=
  match r with
  | EOF => shell_send id 0 st
  | ReadError _ => set_shell_status id Finished st
  | Line line =>
      let cmd := Go.TrimSpace line in
      if String.eqb (Go.TrimSpace cmd) "" then st
      else if String.eqb cmd "logout" || String.eqb cmd "quit" then shell_send id 0 st
      else if Go.HasPrefix cmd "cd" then
        match Go.from1 (Go.Split cmd " ") with
        | [] => st
        | arg1 :: _ =>
            match systems st !! sh_sys shobj with
            | None => shell_send id 1 st
            | Some sys =>
                match Chdir arg1 sys with
                | Some sys' => set_systems (<[sh_sys shobj := sys']> (systems st)) st
                | None =>
                    emit [TerminalWrite id
                            ("-bash: cd: " +:+ arg1 +:+ ": No such file or directory" +:+ LF)] st
                end
            end
        end
      else if Go.HasPrefix cmd "export" then st
      else
        let args := Go.SplitN2 cmd " " in
        match Go.index0 args, systems st !! sh_sys shobj with
        | Some arg0, Some sys =>
            let st1 := emit [CommandTable (Go.Base arg0) (Go.from1 args)] st in
            match Exec arg0 (Go.from1 args) sys with
            | ExecPanic => shell_send id 1 st1
            | ExecNotExist =>
                emit [TerminalWrite id (arg0 +:+ ": command not found" +:+ LF)] st1
            | ExecOk n sys' =>
                set_systems
                  (<[sh_sys shobj :=
                       mkSystem (cwd sys') (<["?" := Go.string_of_int n]> (envVars sys'))
                         (Width sys') (Height sys')]> (systems st1)) st1
            end
        | _, _ => shell_send id 1 st
        end
  end.

(** What can happen next on the channel. *)
Inductive event : Type :=
| EvRequest (req : option Request) (* case req := <-in; None is the nil of a closed stream *)
| EvQuit                           (* case ret := <-quitSignal *)
| EvDispSend                       (* the dispatcher's blocked send completes *)
| EvShellStart (id : nat)          (* HandleRequest of shell id builds its terminal *)
| EvShellRead (id : nat) (r : ReadResult) (* its ReadLine returns *)
| EvShellSend (id : nat).          (* its blocked send completes *)

Definition crashed (st : state) : bool :=
  match disp st with DispPanicked _ => true | _ => false end.

(** One step; [None] when the event cannot happen in this state.  A
    panic of the dispatcher goroutine ends the process. *)
Definition step (st : state) (ev : event) : option state :=
  if crashed st then None
  else
    match ev with
    | EvRequest r =>
        match disp st with
        | Selecting =>
            match r with
            | None => Some (set_disp Returned st)
            | Some req => Some (dispatch req st)
            end
        | _ => None
        end
    | EvQuit =>
        match disp st, quitSignal st with
        | Selecting, Some ret =>
            Some (closeChannel ret (set_disp Returned (set_quit None st)))
        | _, _ => None
        end
    | EvDispSend =>
        match disp st, quitSignal st with
        | DispSending n, None =>
            Some (emit [QuitSend ByDispatcher n; Reply true]
                    (set_disp Selecting (set_quit (Some n) st)))
        | _, _ => None
        end
    | EvShellStart id =>
        match shells st !! id with
        | Some (mkShell _ Spawned) => Some (set_shell_status id Reading st)
        | _ => None
        end
    | EvShellRead id r =>
        match shells st !! id with
        | Some (mkShell p Reading) => Some (shell_round id (mkShell p Reading) r st)
        | _ => None
        end
    | EvShellSend id =>
        match shells st !! id, quitSignal st with
        | Some (mkShell _ (Sending n)), None =>
            Some (emit [QuitSend (ByShell id) n]
                    (set_shell_status id Finished (set_quit (Some n) st)))
        | _, _ => None
        end
    end.

Fixpoint run (st : state) (evs : list event) : option state :=
  match evs with
  | [] => Some st
  | ev :: evs' =>
      match step st ev with
      | Some st' => run st' evs'
      | None => None
      end
  end.

End Dispatcher.

(** Counting in traces and schedules. *)
Definition is_quit_send_by (w : writer) (e : effect) : bool :=
  match e, w with
  | QuitSend ByDispatcher _, ByDispatcher => true
  | QuitSend (ByShell i) _, ByShell j => Nat.eqb i j
  | _, _ => false
  end.

Definition is_quit_send (e : effect) : bool :=
  match e with QuitSend _ _ => true | _ => false end.

Definition is_new_system (e : effect) : bool :=
  match e with NewSystemCall _ _ _ => true | _ => false end.


Definition is_command_table (e : effect) : bool :=
  match e with CommandTable _ _ => true | _ => false end.

Definition count (f : effect -> bool) (tr : list effect) : nat :=
  length (filter (fun e => f e = true) tr).
Arguments count : simpl never.

Definition is_exec_request (ev : event) : bool :=
  match ev with
  | EvRequest (Some req) => String.eqb (ReqType req) "exec"
  | _ => false
  end.

Definition exec_requests (evs : list event) : nat :=
  length (filter (fun ev => is_exec_request ev = true) evs).

(** Completed writes of the quit signal, per writer. *)
Definition shell_sends (id : nat) (tr : list effect) : nat :=
  count (is_quit_send_by (ByShell id)) tr.

Definition disp_sends (tr : list effect) : nat :=
  count (is_quit_send_by ByDispatcher) tr.

(** A send the dispatcher has begun and not completed. *)
Definition pending (st : state) : nat :=
  match disp st with DispSending _ => 1%nat | _ => 0%nat end.

(** The invariant behind the bound on writes: a shell that has not
    finished has written nothing, a finished one at most once; the
    dispatcher's writes, counting one it is blocked in, are covered by the
    exec requests received so far. *)
Definition shell_ok (tr : list effect) (id : nat) (o : option Shell) : Prop :=
  match o with
  | Some (mkShell _ Finished) => (shell_sends id tr <= 1)%nat
  | _ => shell_sends id tr = 0%nat
  end.

Definition quit_inv (k : nat) (st : state) : Prop :=
  (forall id, shell_ok (trace st) id (shells st !! id)) /\
  (disp_sends (trace st) + pending st <= k)%nat.

(** The accounting of the signal's one slot: every completed write
    either has been read by the dispatcher (which then sent the exit
    status) or sits in the slot; and the dispatcher reads at most once,
    leaving its loop when it does. *)
Definition is_exit_status (e : effect) : bool :=
  match e with ExitStatus _ => true | _ => false end.

Definition occupancy (st : state) : nat :=
  match quitSignal st with Some _ => 1%nat | None => 0%nat end.

Definition slot_inv (st : state) : Prop :=
  count is_quit_send (trace st) = (count is_exit_status (trace st) + occupancy st)%nat /\
  (count is_exit_status (trace st) = 0%nat \/
   (count is_exit_status (trace st) = 1%nat /\ disp st = Returned)).

(** What a step of shell [id] may change. *)
Definition shell_step_frame (id : nat) (st st' : state) : Prop :=
  disp st' = disp st /\
  disp_sends (trace st') = disp_sends (trace st) /\
  (forall j, j <> id -> shell_sends j (trace st') = shell_sends j (trace st)) /\
  (forall j, j <> id -> shells st' !! j = shells st !! j) /\
  (shell_sends id (trace st') = shell_sends id (trace st) \/
   (shell_sends id (trace st') = S (shell_sends id (trace st)) /\
    exists p, shells st' !! id = Some (mkShell p Finished))).

(** The creation a shell or exec request starts with when the session
    has no context. *)
Definition created_if_absent (st : state) : list effect :=
  match s_sys st with
  | Some _ => []
  | None => [NewSystemCall (length (systems st)) 80 24]
  end.

End Channel.

(** ** Further parts of the sources *)

Module More.
Import Channel.


(** [closeChannel]: the payload of the exit-status request, the signal
    converted to uint32 and written big endian into four bytes. *)
Definition exit_status_payload (signal : Z) : list byte :=
  Wire.putUint32 (signal mod 2 ^ 32).

(** [RegisterCommand]: [funcMap[name] = cmd]. *)
Definition RegisterCommand (name : string) (cmd : Command)
    (funcMap : gmap string Command) : gmap string Command :=
  <[name := cmd]> funcMap.

(** Replies of the dispatcher. *)
Definition is_reply (e : effect) : bool :=
  match e with Reply _ => true | _ => false end.

Definition is_reply_true (e : effect) : bool :=
  match e with Reply true => true | _ => false end.

(** The pointers of a channel state are in range: the session's context
    and every shell's context are allocated systems, and the dispatcher's
    shell is a shell that was created. *)
Definition in_range (n : nat) (o : option nat) : Prop :=
  match o with Some p => (p < n)%nat | None => True end.

Definition wf (st : state) : Prop :=
  in_range (length (systems st)) (s_sys st) /\
  Forall (fun s => (sh_sys s < length (systems st))%nat) (shells st) /\
  in_range (length (shells st)) (sh st).

(** A command table none of whose commands panics. *)
Definition total_commands (funcMap : gmap string Command) : Prop :=
  forall name cmd args sys, funcMap !! name = Some cmd -> is_Some (cmd args sys).

(** What the shell loop hands to a command: at most one argument. *)
Definition one_argument (e : effect) : Prop :=
  match e with
  | CommandTable _ args => (length args <= 1)%nat
  | _ => True
  end.

(** Whether a command name contains a slash. *)
Definition has_slash (name : string) : bool :=
  existsb (fun c => Ascii.eqb c "/") (list_ascii_of_string name).

(** The results of [ReadLine] on which the shell signals completion
    with code 0: the end of input, and a line that is logout or quit once
    trimmed. *)
Definition ends_gracefully (r : ReadResult) : bool :=
  match r with
  | EOF => true
  | Line line =>
      String.eqb (Go.TrimSpace line) "logout" || String.eqb (Go.TrimSpace line) "quit"
  | ReadError _ => false
  end.

End More.

(** ** Concrete inputs used below *)

Module Sample.

(** A user table with one account, and a configuration with both
    deception switches on. *)
Definition users_root (u : string) : string * bool :=
  if String.eqb u "root" then ("toor", true) else ("", false).

Definition cfg_retry : Config := mkConfig true true "spr" "disable" ∅ "uml".
Definition cfg_strict : Config := mkConfig false false "spr" "disable" ∅ "uml".

(** A table that maps port 80 only, and a well-formed open for port 22. *)
Definition cfg_map : Config :=
  mkConfig false false "spr" "map" {["80" := IString "10.0.0.5:8080"]} "uml".

Definition open_port (port : Z) : Forward.NewChannel :=
  Forward.mkNewChannel "direct-tcpip"
    (Wire.putString "example.com" ++ Wire.putUint32 port
       ++ Wire.putString "10.0.0.1" ++ Wire.putUint32 50000)
    true true.

(** A session of user root on a one-command system: the context as
    the shell constructor's struct literal builds it (empty environment,
    the given size), a file system in which only /nonexistent is missing,
    and a table with ls, which succeeds with status 0. *)
Definition new_system (user hostname : string) (width height : Z) : Channel.System :=
  Channel.mkSystem ("/home/" +:+ user) ∅ width height.

Definition chdir (path : string) (sys : Channel.System) : option Channel.System :=
  if String.eqb path "/nonexistent" then None
  else Some (Channel.mkSystem path (Channel.envVars sys) (Channel.Width sys) (Channel.Height sys)).

Definition ls : Channel.Command := fun _ sys => Some (0, sys).

Definition commands : gmap string Channel.Command := {["ls" := ls]}.

Definition run_root (evs : list Channel.event) : option Channel.state :=
  Channel.run cfg_retry "root" new_system chdir commands Channel.init evs.

(** The state a schedule leads to (the initial one if it cannot run). *)
Definition after (evs : list Channel.event) : Channel.state :=
  default Channel.init (run_root evs).

Definition shell_req : Channel.Request := Channel.mkRequest "shell" [].

Definition exec_req (cmd : string) : Channel.Request :=
  Channel.mkRequest "exec" (Wire.putString cmd).

Definition pty_req (width height : Z) : Channel.Request :=
  Channel.mkRequest "pty-req"
    (Wire.putString "xterm" ++ Wire.putUint32 width ++ Wire.putUint32 height
       ++ Wire.putUint32 0 ++ Wire.putUint32 0 ++ Wire.putString "").

Definition env_req (name value : string) : Channel.Request :=
  Channel.mkRequest "env" (Wire.putString name ++ Wire.putString value).

(** A window-change request as RFC 4254 lays it out: columns, rows,
    width and height in pixels. *)
Definition window_change_req (cols rows : Z) : Channel.Request :=
  Channel.mkRequest "window-change"
    (Wire.putUint32 cols ++ Wire.putUint32 rows ++ Wire.putUint32 0 ++ Wire.putUint32 0).

Definition ev (req : Channel.Request) : Channel.event := Channel.EvRequest (Some req).

End Sample.

(** ** More concrete inputs *)

Module MoreSample.
Import Sample.

Definition cfg_direct : Config := mkConfig false false "spr" "direct" ∅ "uml".

Definition forwarded_open : Forward.NewChannel :=
  Forward.mkNewChannel "forwarded-tcpip"
    (Wire.putString "example.com" ++ Wire.putUint32 22
       ++ Wire.putString "10.0.0.1" ++ Wire.putUint32 50000)
    true true.

(** A direct-tcpip open without extra data. *)
Definition corrupt_open : Forward.NewChannel :=
  Forward.mkNewChannel "direct-tcpip" [] true true.

(** States of the sample channel: a shell granted, the same shell
    running, and the dispatcher blocked in the send of a second exec while
    a shell runs. *)
Definition st_granted : Channel.state := after [ev shell_req].

Definition st_running : Channel.state := after [ev shell_req; Channel.EvShellStart 0].

Definition st_blocked : Channel.state :=
  after [ev shell_req; Channel.EvShellStart 0; ev (exec_req "ls"); ev (exec_req "ls")].

Definition step_root : Channel.state -> Channel.event -> option Channel.state :=
  Channel.step cfg_retry "root" new_system chdir commands.

Definition dispatch_root : Channel.Request -> Channel.state -> Channel.state :=
  Channel.dispatch cfg_retry "root" new_system commands.

End MoreSample.

(** * Properties *)

(** ** Password policy *)

Module AuthFacts.
Import Auth Sample.

Section Facts.

Variable IsUserExist : string -> string * bool.
Variable cfg : Config.

Lemma wrap_int_small (z : Z) : - 2 ^ 63 <= z < 2 ^ 63 -> wrap_int z = z.
Proof.
  intros Hz. unfold wrap_int.
  rewrite Z.mod_small by lia. lia.
Qed.

(** The three branches of the callback exclude one another. *)
Lemma enters_deception_spec (user pass : string) :
  enters_deception IsUserExist cfg user pass = true <->
  exact_match IsUserExist user pass = false /\
  deception_test IsUserExist cfg user pass = true.
Proof.
  unfold enters_deception.
  rewrite andb_true_iff, negb_true_iff. tauto.
Qed.

(** In the deception branch with retries enabled the counter decides
    alone: accept at one, otherwise reject and count down. *)
Lemma callback_deception_retry (t : Z) (user pass : string) :
  allowRetryLogin cfg = true ->
  enters_deception IsUserExist cfg user pass = true ->
  callback IsUserExist cfg t user pass =
    if t =? 1 then (Accept successPerm, t)
    else (RejectAfterDelay, wrap_int (t - 1)).
Proof.
  intros Hretry Hdec.
  apply enters_deception_spec in Hdec as [Hexact Htest].
  unfold callback. now rewrite Hexact, Htest, Hretry.
Qed.

(** With retries disabled the deception branch accepts at once. *)
Lemma callback_deception_no_retry (t : Z) (user pass : string) :
  allowRetryLogin cfg = false ->
  enters_deception IsUserExist cfg user pass = true ->
  callback IsUserExist cfg t user pass = (Accept successPerm, t).
Proof.
  intros Hretry Hdec.
  apply enters_deception_spec in Hdec as [Hexact Htest].
  unfold callback. now rewrite Hexact, Htest, Hretry.
Qed.

(** An unknown user with allowRandomUser unset is rejected and the
    counter is left alone. *)
Lemma callback_hard_reject (t : Z) (user pass stpass : string) :
  IsUserExist user = (stpass, false) ->
  allowRandomUser cfg = false ->
  callback IsUserExist cfg t user pass = (RejectAfterDelay, t).
Proof.
  intros Huser Hrandom.
  unfold callback, exact_match, deception_test.
  now rewrite Huser, Hrandom.
Qed.



(** C4. A known user submitting exactly the stored credential is
    accepted by the first call, with the counter untouched, whatever
    allowRetryLogin, allowRandomUser and the counter are (the wildcard
    credential included). *)
Theorem exact_password_accepted_at_once
    (tries : Z) (user pass stpass : string) (rest : list (string * string)) :
  IsUserExist user = (stpass, true) ->
  stpass = pass ->
  callback IsUserExist cfg tries user pass = (Accept successPerm, tries) /\
  head (PasswordChallenge IsUserExist cfg tries ((user, pass) :: rest)) =
    Some (Accept successPerm).
Proof.
  intros Huser ->.
  assert (Hexact : exact_match IsUserExist user pass = true).
  { unfold exact_match. rewrite Huser. simpl. apply String.eqb_refl. }
  unfold PasswordChallenge. cbn [attempts].
  unfold callback. rewrite Hexact. split; reflexivity.
Qed.

End Facts.


Lemma exact_password_witness :
  callback users_root cfg_strict 3 "root" "toor" = (Accept successPerm, 3) /\
  head (PasswordChallenge users_root cfg_strict 3 [("root", "toor")]) =
    Some (Accept successPerm).
Proof.
  apply (exact_password_accepted_at_once users_root cfg_strict 3 "root" "toor" "toor" []);
    reflexivity.
Defined.

(** The wildcard credential submitted literally takes the exact-match
    branch, not the deception branch. *)
Example wildcard_literal_is_exact :
  enters_deception (fun _ => ("*", true)) cfg_retry "root" "*" = false /\
  callback (fun _ => ("*", true)) cfg_retry 3 "root" "*" = (Accept successPerm, 3).
Proof. split; reflexivity. Qed.

End AuthFacts.

(** ** Channel opens *)

Module ForwardFacts.
Import Forward Sample.

Section Facts.

Variable cfg : Config.

Lemma resolve_map_absent (treq : tunnelRequest) :
  portRedirection cfg = "map" ->
  portRedirectionMap cfg !! Go.Itoa (RemotePort treq) = None ->
  resolve cfg treq =
    AssertionPanic "interface conversion: interface {} is nil, not string".
Proof.
  intros Hpol Hnone. unfold resolve. rewrite Hpol, Hnone. reflexivity.
Qed.

Lemma resolve_map_present (treq : tunnelRequest) (h : string) :
  portRedirection cfg = "map" ->
  portRedirectionMap cfg !! Go.Itoa (RemotePort treq) = Some (IString h) ->
  resolve cfg treq = Host h.
Proof.
  intros Hpol Hsome. unfold resolve. rewrite Hpol, Hsome. reflexivity.
Qed.

(** C3. A direct-tcpip open under the map policy whose port is not in
    the table: nothing is dialed, but the channel is not rejected
    either.  The lookup yields a nil interface value, the assertion
    [.(string)] on it panics, and the iteration ends there; the only
    effect that can precede the panic is the corrupt-payload rejection
    of an undecodable request. *)
Theorem map_unmapped_port_panics (ch : NewChannel) (treq : tunnelRequest) (ok : bool) :
  ChannelType ch = "direct-tcpip" ->
  portRedirection cfg = "map" ->
  Wire.Unmarshal tunnelRequest_fields (ExtraData ch) tunnelRequest_zero = (treq, ok) ->
  portRedirectionMap cfg !! Go.Itoa (RemotePort treq) = None ->
  exists m,
    handleChannel cfg ch =
      (if ok then [] else [Reject UnknownChannelType "Corrupt payload"], Panicked m) /\
    forallb (fun e => negb (is_dial e)) (fst (handleChannel cfg ch)) = true /\
    (ok = true -> forallb (fun e => negb (is_reject e)) (fst (handleChannel cfg ch)) = true).
Proof.
  intros Hty Hpol Hdec Hnone.
  unfold handleChannel. rewrite Hty, Hdec. cbn [String.eqb orb].
  replace ("direct-tcpip" =? "direct-tcpip")%string with true by reflexivity.
  replace ("direct-tcpip" =? "forwarded-tcpip")%string with false by reflexivity.
  cbn [orb]. rewrite (resolve_map_absent _ Hpol Hnone).
  eexists. split; [reflexivity|].
  destruct ok; split; try reflexivity. discriminate.
Qed.

(** The sibling path: a port that is in the table is resolved, the
    channel accepted and the mapped host dialed once. *)
Lemma map_mapped_port_dials (ch : NewChannel) (treq : tunnelRequest) (h : string) :
  ChannelType ch = "direct-tcpip" ->
  portRedirection cfg = "map" ->
  Wire.Unmarshal tunnelRequest_fields (ExtraData ch) tunnelRequest_zero = (treq, true) ->
  portRedirectionMap cfg !! Go.Itoa (RemotePort treq) = Some (IString h) ->
  h <> "" ->
  snd (handleChannel cfg ch) = Next /\
  filter (fun e => is_dial e = true) (fst (handleChannel cfg ch)) = [Dial "tcp" h].
Proof.
  intros Hty Hpol Hdec Hsome Hne.
  unfold handleChannel. rewrite Hty, Hdec.
  replace ("direct-tcpip" =? "direct-tcpip")%string with true by reflexivity.
  replace ("direct-tcpip" =? "forwarded-tcpip")%string with false by reflexivity.
  cbn [orb]. rewrite (resolve_map_present _ _ Hpol Hsome).
  destruct h as [|c h]; [congruence|].
  replace (0 <? Z.of_nat (String.length (String c h))) with true
    by (symmetry; apply Z.ltb_lt; cbn [String.length]; lia).
  unfold relay. destruct (accept_ok ch), (dial_ok ch); split; reflexivity.
Qed.

End Facts.

Lemma map_unmapped_port_witness :
  exists m,
    handleChannel cfg_map (open_port 22) = ([], Panicked m) /\
    forallb (fun e => negb (is_dial e)) (fst (handleChannel cfg_map (open_port 22))) = true /\
    (true = true ->
     forallb (fun e => negb (is_reject e)) (fst (handleChannel cfg_map (open_port 22))) = true).
Proof.
  apply (map_unmapped_port_panics cfg_map (open_port 22)
           (mkTunnelRequest "example.com" 22 "10.0.0.1" 50000) true);
    vm_compute; reflexivity.
Defined.

Example mapped_port_80 :
  handleChannel cfg_map (open_port 80) =
    ([Accept; DiscardRequests; Dial "tcp" "10.0.0.5:8080"; Relay], Next).
Proof. vm_compute. reflexivity. Qed.

(** The panic ends the loop: channels opened after it are never served. *)
Example unmapped_port_stops_the_loop :
  handleNewConn cfg_map [open_port 22; open_port 80] =
    ([], Panicked "interface conversion: interface {} is nil, not string").
Proof. vm_compute. reflexivity. Qed.

End ForwardFacts.

(** ** Session channels *)

Module ChannelFacts.
Import Channel Sample.

(** *** Bookkeeping on traces *)

Lemma count_app (f : effect -> bool) (l1 l2 : list effect) :
  count f (l1 ++ l2) = (count f l1 + count f l2)%nat.
Proof. unfold count. now rewrite filter_app, length_app. Qed.

Lemma count_nil (f : effect -> bool) : count f [] = 0%nat.
Proof. reflexivity. Qed.

Lemma count_cons (f : effect -> bool) (e : effect) (l : list effect) :
  count f (e :: l) = ((if f e then 1 else 0) + count f l)%nat.
Proof.
  unfold count. rewrite filter_cons.
  destruct (f e); destruct (decide _); simpl; congruence.
Qed.

(** *** Decoding a window-change payload *)



(** *** The dispatcher, one request type at a time *)

Section Facts.

Variable cfg : Config.
Variable user : string.
Variable NewSystem : string -> string -> Z -> Z -> System.
Variable Chdir : string -> System -> option System.
Variable funcMap : gmap string Command.

Local Abbreviation dispatch := (Channel.dispatch cfg user NewSystem funcMap).
Local Abbreviation step := (Channel.step cfg user NewSystem Chdir funcMap).
Local Abbreviation run := (Channel.run cfg user NewSystem Chdir funcMap).
Local Abbreviation on_shell := (Channel.on_shell cfg user NewSystem).
Local Abbreviation on_pty_req := (Channel.on_pty_req cfg user NewSystem).
Local Abbreviation on_exec := (Channel.on_exec cfg user NewSystem funcMap).
Local Abbreviation alloc := (Channel.alloc cfg user NewSystem).
Local Abbreviation shell_round := (Channel.shell_round Chdir funcMap).

Lemma dispatch_pty_req (req : Request) (st : state) :
  ReqType req = "pty-req" -> dispatch req st = on_pty_req req st.
Proof. intros H. unfold Channel.dispatch. rewrite H. reflexivity. Qed.

Lemma dispatch_env (req : Request) (st : state) :
  ReqType req = "env" -> dispatch req st = on_env req st.
Proof. intros H. unfold Channel.dispatch. rewrite H. reflexivity. Qed.

Lemma dispatch_shell (req : Request) (st : state) :
  ReqType req = "shell" -> dispatch req st = on_shell req st.
Proof. intros H. unfold Channel.dispatch. rewrite H. reflexivity. Qed.

Lemma dispatch_subsystem (req : Request) (st : state) :
  ReqType req = "subsystem" -> dispatch req st = on_subsystem req st.
Proof. intros H. unfold Channel.dispatch. rewrite H. reflexivity. Qed.

Lemma dispatch_window_change (req : Request) (st : state) :
  ReqType req = "window-change" -> dispatch req st = on_window_change req st.
Proof. intros H. unfold Channel.dispatch. rewrite H. reflexivity. Qed.

Lemma dispatch_exec (req : Request) (st : state) :
  ReqType req = "exec" -> dispatch req st = on_exec req st.
Proof. intros H. unfold Channel.dispatch. rewrite H. reflexivity. Qed.

Lemma step_request (req : Request) (st : state) :
  disp st = Selecting ->
  step st (EvRequest (Some req)) = Some (dispatch req st).
Proof.
  intros H. unfold Channel.step, crashed. now rewrite H.
Qed.

Lemma on_shell_spec (req : Request) (st : state) :
  let st' := on_shell req st in
  let id := length (shells st) in
  trace st' = trace st ++ created_if_absent st ++ [GoShell id (select_hook cfg); Reply true] /\
  sh st' = Some id /\
  shells st' =
    shells st ++ [mkShell (default (length (systems st)) (s_sys st)) Spawned] /\
  s_sys st' = Some (default (length (systems st)) (s_sys st)) /\
  systems st' =
    match s_sys st with
    | Some _ => systems st
    | None => systems st ++ [NewSystem user (hostname cfg) 80 24]
    end /\
  disp st' = disp st /\
  quitSignal st' = quitSignal st.
Proof.
  unfold Channel.on_shell, created_if_absent.
  destruct (s_sys st) as [p|] eqn:Hsys; cbn.
  - rewrite Hsys. repeat split; reflexivity.
  - rewrite <- app_assoc. repeat split; reflexivity.
Qed.


Lemma on_pty_req_ok (req : Request) (st : state) (ptyreq : ptyRequest) :
  Wire.Unmarshal ptyRequest_fields (Payload req) ptyRequest_zero = (ptyreq, true) ->
  let st' := on_pty_req req st in
  s_sys st' = Some (length (systems st)) /\
  s_term st' = pty_Term ptyreq /\
  systems st' =
    systems st ++ [NewSystem user (hostname cfg) (pty_Width ptyreq) (pty_Height ptyreq)] /\
  trace st' =
    trace st ++ [NewSystemCall (length (systems st)) (pty_Width ptyreq) (pty_Height ptyreq);
                 Reply true].
Proof.
  intros Hdec. unfold Channel.on_pty_req. rewrite Hdec. cbn.
  rewrite <- app_assoc. repeat split; reflexivity.
Qed.

Lemma on_pty_req_malformed (req : Request) (st : state) (ptyreq : ptyRequest) :
  Wire.Unmarshal ptyRequest_fields (Payload req) ptyRequest_zero = (ptyreq, false) ->
  on_pty_req req st = emit [Reply false] st.
Proof. intros Hdec. unfold Channel.on_pty_req. now rewrite Hdec. Qed.



(** C7 as the code has it.  An env request whose payload decodes is
    logged and answered with success; one whose payload does not decode is
    answered with failure.  Either way no system is touched: nothing is
    stored in any environment mapping. *)
Theorem env_request_logged_not_recorded (req : Request) (st : state) :
  ReqType req = "env" ->
  systems (dispatch req st) = systems st /\
  s_sys (dispatch req st) = s_sys st /\
  trace (dispatch req st) =
    trace st ++
      (let '(envReq, ok) :=
         Wire.Unmarshal envRequest_fields (Payload req) envRequest_zero in
       if ok then [LogEnv (env_Name envReq) (env_Value envReq); Reply true]
       else [Reply false]).
Proof.
  intros Hty. rewrite (dispatch_env _ _ Hty). unfold on_env.
  destruct (Wire.Unmarshal envRequest_fields (Payload req) envRequest_zero) as [envReq [|]];
    repeat split; reflexivity.
Qed.




(** *** The quit signal *)

Lemma set_shell_status_proj (id : nat) (s : shell_status) (st : state) :
  trace (set_shell_status id s st) = trace st /\
  disp (set_shell_status id s st) = disp st /\
  quitSignal (set_shell_status id s st) = quitSignal st /\
  systems (set_shell_status id s st) = systems st.
Proof.
  unfold set_shell_status. destruct (shells st !! id); repeat split; reflexivity.
Qed.

Lemma set_shell_status_other (id j : nat) (s : shell_status) (st : state) :
  j <> id -> shells (set_shell_status id s st) !! j = shells st !! j.
Proof.
  intros Hne. unfold set_shell_status.
  destruct (shells st !! id); [|reflexivity].
  cbn. now apply list_lookup_insert_ne.
Qed.

Lemma set_shell_status_same (id p : nat) (s0 s : shell_status) (st : state) :
  shells st !! id = Some (mkShell p s0) ->
  shells (set_shell_status id s st) !! id = Some (mkShell p s).
Proof.
  intros Hid. unfold set_shell_status. rewrite Hid. cbn.
  apply list_lookup_insert_eq. eapply lookup_lt_Some, Hid.
Qed.

Lemma shell_sends_other (id j : nat) (n : Z) :
  j <> id -> is_quit_send_by (ByShell j) (QuitSend (ByShell id) n) = false.
Proof. intros Hne. cbn. apply Nat.eqb_neq. congruence. Qed.

Lemma shell_sends_same (id : nat) (n : Z) :
  is_quit_send_by (ByShell id) (QuitSend (ByShell id) n) = true.
Proof. cbn. apply Nat.eqb_refl. Qed.

Lemma frame_refl (id : nat) (st : state) : shell_step_frame id st st.
Proof. unfold shell_step_frame. repeat split; auto. Qed.

(** Changes that involve neither the quit signal nor the shells. *)
Lemma frame_quiet (id : nat) (st st' : state) :
  disp st' = disp st ->
  shells st' = shells st ->
  (forall w, count (is_quit_send_by w) (trace st') = count (is_quit_send_by w) (trace st)) ->
  shell_step_frame id st st'.
Proof.
  intros Hd Hs Hc. unfold shell_step_frame, shell_sends, disp_sends.
  rewrite Hd, Hs. repeat split; auto.
Qed.

Lemma frame_status (id : nat) (s : shell_status) (st : state) :
  shell_step_frame id st (set_shell_status id s st).
Proof.
  destruct (set_shell_status_proj id s st) as (Htr & Hd & _ & _).
  unfold shell_step_frame. rewrite Htr, Hd.
  repeat split; auto. intros j Hj. now apply set_shell_status_other.
Qed.

(** A completed send by shell [id]. *)
Lemma frame_sent (id p : nat) (s0 : shell_status) (n : Z) (st : state) :
  shells st !! id = Some (mkShell p s0) ->
  shell_step_frame id st
    (emit [QuitSend (ByShell id) n]
       (set_shell_status id Finished (set_quit (Some n) st))).
Proof.
  intros Hid.
  pose proof (set_shell_status_proj id Finished (set_quit (Some n) st)) as (Htr & Hd & _ & _).
  unfold shell_step_frame, shell_sends, disp_sends. cbn.
  rewrite Htr, Hd. cbn. rewrite !count_app, !count_cons, !count_nil.
  refine (conj eq_refl (conj _ (conj _ (conj _ _)))).
  - cbn. lia.
  - intros j Hj. rewrite count_app, count_cons, count_nil, shell_sends_other by assumption. lia.
  - intros j Hj. now rewrite set_shell_status_other.
  - right. rewrite shell_sends_same. split; [lia|].
    exists p. eapply set_shell_status_same. cbn. exact Hid.
Qed.

Lemma frame_shell_send (id p : nat) (s0 : shell_status) (n : Z) (st : state) :
  shells st !! id = Some (mkShell p s0) ->
  shell_step_frame id st (shell_send id n st).
Proof.
  intros Hid. unfold shell_send.
  destruct (quitSignal st).
  - apply frame_status.
  - now apply (frame_sent id p s0).
Qed.

Lemma frame_after_quiet (id : nat) (st st1 st2 : state) :
  disp st1 = disp st ->
  shells st1 = shells st ->
  (forall w, count (is_quit_send_by w) (trace st1) = count (is_quit_send_by w) (trace st)) ->
  shell_step_frame id st1 st2 ->
  shell_step_frame id st st2.
Proof.
  intros Hd Hs Hc. unfold shell_step_frame, shell_sends, disp_sends.
  rewrite Hd, Hs, !Hc. intros (H1 & H2 & H3 & H4 & H5).
  refine (conj H1 (conj H2 (conj _ (conj H4 H5)))).
  intros j Hj. rewrite <- Hc. now apply H3.
Qed.

Lemma frame_shell_round (id p : nat) (r : ReadResult) (st : state) :
  shells st !! id = Some (mkShell p Reading) ->
  shell_step_frame id st (shell_round id (mkShell p Reading) r st).
Proof.
  intros Hid. unfold Channel.shell_round.
  repeat case_match;
    try apply frame_refl;
    try (now apply (frame_shell_send id p Reading));
    try apply frame_status;
    try (apply frame_quiet; try reflexivity;
         intros w; cbn; rewrite ?count_app, ?count_cons, ?count_nil; cbn; lia).
  all: match goal with
       | |- shell_step_frame _ _ (shell_send _ _ ?st1) =>
           apply (frame_after_quiet id st st1);
             [reflexivity | reflexivity
             | intros w; cbn; rewrite ?count_app, ?count_cons, ?count_nil; cbn; lia
             | now apply (frame_shell_send id p Reading) ]
       end.
Qed.

(** What handling a request may change: no shell's writes, no shell
    already there; at most one new shell, not yet started; and the
    dispatcher writes (or begins to write) only on an exec request. *)
Lemma dispatch_quit_frame (req : Request) (st : state) :
  disp st = Selecting ->
  (forall id, shell_sends id (trace (dispatch req st)) = shell_sends id (trace st)) /\
  (shells (dispatch req st) = shells st \/
   exists p, shells (dispatch req st) = shells st ++ [mkShell p Spawned]) /\
  (disp_sends (trace (dispatch req st)) + pending (dispatch req st) <=
   disp_sends (trace st) + (if String.eqb (ReqType req) "exec" then 1 else 0))%nat.
Proof.
  intros Hsel.
  unfold Channel.dispatch, Channel.on_pty_req, on_env, Channel.on_shell, on_subsystem,
    on_window_change, Channel.on_exec, SetSize, disp_send, panic, Channel.alloc.
  cbv zeta.
  destruct (String.eqb (ReqType req) "exec") eqn:Hexec;
    destruct (s_sys st) eqn:Hsys; cbn;
    repeat case_match; subst; unfold pending, disp_sends, shell_sends; cbn; rewrite ?Hsel;
    (split; [intros j | split; [first [left; reflexivity | right; eexists; reflexivity] |]]);
    rewrite ?count_app, ?count_cons, ?count_nil; cbn; try lia; try discriminate.
Qed.

(** A step of a shell that has not finished keeps the invariant. *)
Lemma frame_keeps_inv (id p : nat) (s0 : shell_status) (k : nat) (st st' : state) :
  shells st !! id = Some (mkShell p s0) ->
  s0 <> Finished ->
  shell_step_frame id st st' ->
  quit_inv k st -> quit_inv k st'.
Proof.
  intros Hid Hs0 (Hd & Hds & Hothers & Hshells & Hme) [Hsh Hdisp].
  split.
  - intros j. destruct (decide (j = id)) as [->|Hne].
    + pose proof (Hsh id) as Hok. rewrite Hid in Hok.
      assert (Hzero : shell_sends id (trace st) = 0%nat).
      { destruct s0; try assumption. congruence. }
      destruct Hme as [Hsame | [Hone [q Hq]]].
      * unfold shell_ok. rewrite Hsame, Hzero.
        destruct (shells st' !! id) as [[? []]|]; lia.
      * rewrite Hq. unfold shell_ok. lia.
    + rewrite (Hshells j Hne). pose proof (Hsh j) as Hok.
      unfold shell_ok in *. now rewrite (Hothers j Hne).
  - unfold pending in *. rewrite Hd, Hds. exact Hdisp.
Qed.

Lemma step_keeps_inv (st st' : state) (ev : event) (k : nat) :
  step st ev = Some st' ->
  quit_inv k st ->
  quit_inv (k + (if is_exec_request ev then 1 else 0)) st'.
Proof.
  unfold Channel.step. destruct (crashed st); [discriminate|].
  destruct ev as [[req|] | | | id | id r | id]; cbn [is_exec_request].
  - (* a request *)
    destruct (disp st) eqn:Hsel; try discriminate.
    intros [= <-] [Hsh Hdisp].
    destruct (dispatch_quit_frame req st Hsel) as (Hsame & Hshells & Hbound).
    unfold pending in Hdisp. rewrite Hsel in Hdisp.
    split; [|lia].
    intros j. pose proof (Hsh j) as Hok. unfold shell_ok in *. rewrite Hsame.
    destruct Hshells as [-> | [p ->]]; [exact Hok|].
    destruct (shells st !! j) as [s|] eqn:Hj.
    + now rewrite (lookup_app_l_Some _ _ _ _ Hj).
    + destruct ((shells st ++ [mkShell p Spawned]) !! j) as [s|] eqn:Hj'; [|exact Hok].
      apply lookup_app_Some in Hj' as [Hj'|[_ Hj']]; [congruence|].
      destruct (j - length (shells st))%nat; cbn in Hj'; [|discriminate].
      injection Hj' as <-. exact Hok.
  - (* the request stream ends *)
    destruct (disp st) eqn:Hsel; try discriminate.
    intros [= <-] [Hsh Hdisp]. split; [exact Hsh|].
    unfold pending in *. cbn. rewrite Hsel in Hdisp. lia.
  - (* the quit signal is read *)
    destruct (disp st) eqn:Hsel; try discriminate.
    destruct (quitSignal st); try discriminate.
    intros [= <-] [Hsh Hdisp]. unfold pending in Hdisp. rewrite Hsel in Hdisp.
    split.
    + intros j. pose proof (Hsh j) as Hok. unfold shell_ok, shell_sends in *. cbn.
      rewrite count_app, !count_cons, count_nil. cbn. now rewrite Nat.add_0_r.
    + unfold pending, disp_sends in *. cbn.
      rewrite count_app, !count_cons, count_nil. cbn. lia.
  - (* the dispatcher's blocked send completes *)
    destruct (disp st) eqn:Hsel; try discriminate.
    destruct (quitSignal st); try discriminate.
    intros [= <-] [Hsh Hdisp]. unfold pending in Hdisp. rewrite Hsel in Hdisp.
    split.
    + intros j. pose proof (Hsh j) as Hok. unfold shell_ok, shell_sends in *. cbn.
      rewrite count_app, !count_cons, count_nil. cbn. now rewrite Nat.add_0_r.
    + unfold pending, disp_sends in *. cbn.
      rewrite count_app, !count_cons, count_nil. cbn. lia.
  - (* a shell starts *)
    destruct (shells st !! id) as [[p []]|] eqn:Hid; try discriminate.
    intros [= <-] Hinv. rewrite Nat.add_0_r.
    apply (frame_keeps_inv id p Spawned k st); [assumption | discriminate | | assumption].
    apply frame_status.
  - (* a shell reads *)
    destruct (shells st !! id) as [[p []]|] eqn:Hid; try discriminate.
    intros [= <-] Hinv. rewrite Nat.add_0_r.
    apply (frame_keeps_inv id p Reading k st); [assumption | discriminate | | assumption].
    now apply frame_shell_round.
  - (* a shell's blocked send completes *)
    destruct (shells st !! id) as [[p [| |n|]]|] eqn:Hid; try discriminate.
    destruct (quitSignal st); try discriminate.
    intros [= <-] Hinv. rewrite Nat.add_0_r.
    apply (frame_keeps_inv id p (Sending n) k st); [assumption | discriminate | | assumption].
    now apply (frame_sent id p (Sending n)).
Qed.

Lemma exec_requests_cons (ev : event) (evs : list event) :
  exec_requests (ev :: evs) =
    ((if is_exec_request ev then 1 else 0) + exec_requests evs)%nat.
Proof.
  unfold exec_requests. rewrite filter_cons.
  destruct (is_exec_request ev); destruct (decide _); cbn; congruence.
Qed.

Lemma run_keeps_inv (evs : list event) (st st' : state) (k : nat) :
  run st evs = Some st' ->
  quit_inv k st ->
  quit_inv (k + exec_requests evs) st'.
Proof.
  revert st k. induction evs as [|ev evs IH]; intros st k Hrun Hinv.
  - injection Hrun as <-. now rewrite Nat.add_0_r.
  - cbn [Channel.run] in Hrun.
    destruct (step st ev) as [st1|] eqn:Hstep; [|discriminate].
    pose proof (step_keeps_inv _ _ _ _ Hstep Hinv) as Hinv1.
    rewrite exec_requests_cons, Nat.add_assoc.
    exact (IH _ _ Hrun Hinv1).
Qed.

Lemma fresh_inv (sys : list System) (p : option nat) (term : string) :
  quit_inv 0 (fresh sys p term).
Proof. split; [intros id; reflexivity | exact (le_n 0)]. Qed.


(** *** The slot of the quit signal *)

Lemma step_keeps_slot (st st' : state) (ev : event) :
  step st ev = Some st' -> slot_inv st -> slot_inv st'.
Proof.
  unfold Channel.step, slot_inv, occupancy.
  destruct (crashed st); [discriminate|].
  destruct ev as [[req|] | | | id | id r | id].
  - destruct (disp st) eqn:Hsel; try discriminate.
    intros [= <-] [Hacc [Hzero | [_ Hret]]]; [|discriminate].
    unfold Channel.dispatch, Channel.on_pty_req, on_env, Channel.on_shell, on_subsystem,
      on_window_change, Channel.on_exec, SetSize, disp_send, panic, Channel.alloc.
    cbv zeta.
    revert Hacc.
    destruct (s_sys st) eqn:Hsys; destruct (quitSignal st) eqn:Hq; intros Hacc;
      cbn in Hacc; cbn;
      repeat case_match; subst; cbn; rewrite ?Hq;
      rewrite ?count_app, ?count_cons, ?count_nil; cbn; split; try lia; try discriminate;
      try (cbn in *; congruence).
  - destruct (disp st) eqn:Hsel; try discriminate.
    intros [= <-] [Hacc [Hzero | [_ Hret]]]; [|discriminate].
    cbn. split; [assumption | now left].
  - destruct (disp st) eqn:Hsel; try discriminate.
    destruct (quitSignal st) eqn:Hq; try discriminate.
    intros [= <-] [Hacc [Hzero | [_ Hret]]]; [|discriminate].
    cbn. rewrite !count_app, !count_cons, !count_nil. cbn.
    split; [lia | right; split; [lia | reflexivity]].
  - destruct (disp st) eqn:Hsel; try discriminate.
    destruct (quitSignal st) eqn:Hq; try discriminate.
    intros [= <-] [Hacc [Hzero | [_ Hret]]]; [|discriminate].
    cbn. rewrite !count_app, !count_cons, !count_nil. cbn.
    split; [lia | left; lia].
  - destruct (shells st !! id) as [[p []]|] eqn:Hid; try discriminate.
    intros [= <-].
    destruct (set_shell_status_proj id Reading st) as (-> & -> & -> & _). tauto.
  - destruct (shells st !! id) as [[p []]|] eqn:Hid; try discriminate.
    intros [= <-] [Hacc Hreads].
    unfold Channel.shell_round, shell_send, set_shell_status. cbv zeta.
    revert Hacc.
    destruct (quitSignal st) eqn:Hq; intros Hacc; cbn in Hacc; cbn;
      repeat case_match; subst; cbn; rewrite ?Hq;
      rewrite ?count_app, ?count_cons, ?count_nil; cbn; rewrite ?Nat.add_0_r;
      split; try lia; try assumption; try discriminate; try (cbn in *; congruence).
  - destruct (shells st !! id) as [[p [| |n|]]|] eqn:Hid; try discriminate.
    destruct (quitSignal st) eqn:Hq; try discriminate.
    intros [= <-] [Hacc Hreads].
    unfold set_shell_status. cbn. rewrite Hid. cbn.
    rewrite !count_app, !count_cons, !count_nil. cbn. rewrite !Nat.add_0_r.
    split; [lia | assumption].
Qed.

Lemma run_keeps_slot (evs : list event) (st st' : state) :
  run st evs = Some st' -> slot_inv st -> slot_inv st'.
Proof.
  revert st. induction evs as [|ev evs IH]; intros st Hrun Hinv.
  - now injection Hrun as <-.
  - cbn [Channel.run] in Hrun.
    destruct (step st ev) as [st1|] eqn:Hstep; [|discriminate].
    eauto using step_keeps_slot.
Qed.

Lemma fresh_slot (sys : list System) (p : option nat) (term : string) :
  slot_inv (fresh sys p term).
Proof. split; [reflexivity | left; reflexivity]. Qed.

(** C5 as the code has it.  Over any schedule of a channel, from its
    opening: each Shell task writes the quit signal at most once, the
    dispatcher writes it at most once per exec request it received, and
    the channel sees at most two writes in all, the one the dispatcher
    reads and one more that stays in the slot. *)
Theorem quit_signal_writes_bounded
    (sys : list System) (p : option nat) (term : string)
    (evs : list event) (st : state) :
  run (fresh sys p term) evs = Some st ->
  (forall id, (shell_sends id (trace st) <= 1)%nat) /\
  (disp_sends (trace st) <= exec_requests evs)%nat /\
  (count is_quit_send (trace st) <= 2)%nat.
Proof.
  intros Hrun.
  destruct (run_keeps_inv evs _ st 0 Hrun (fresh_inv sys p term)) as [Hsh Hdisp].
  destruct (run_keeps_slot evs _ st Hrun (fresh_slot sys p term)) as [Hacc Hreads].
  split; [|split].
  - intros id. pose proof (Hsh id) as Hok. revert Hok. unfold shell_ok.
    destruct (shells st !! id) as [[? []]|]; cbn; lia.
  - cbn in Hdisp. lia.
  - unfold occupancy in Hacc. destruct (quitSignal st); lia.
Qed.

(** *** The shell loop on a command that is found *)

(** A line that reaches the default case and names a registered command:
    what is stored under ? is the conversion [string(n)] of the exit
    status, the UTF-8 encoding of code point [n]. *)
Lemma shell_round_stores_code_point
    (id p : nat) (line arg0 : string) (sys sys' : System) (n : Z) (st : state) :
  String.eqb (Go.TrimSpace (Go.TrimSpace line)) "" = false ->
  String.eqb (Go.TrimSpace line) "logout" || String.eqb (Go.TrimSpace line) "quit" = false ->
  Go.HasPrefix (Go.TrimSpace line) "cd" = false ->
  Go.HasPrefix (Go.TrimSpace line) "export" = false ->
  Go.index0 (Go.SplitN2 (Go.TrimSpace line) " ") = Some arg0 ->
  systems st !! p = Some sys ->
  Exec funcMap arg0 (Go.from1 (Go.SplitN2 (Go.TrimSpace line) " ")) sys = ExecOk n sys' ->
  exists sys'',
    systems (shell_round id (mkShell p Reading) (Line line) st) !! p = Some sys'' /\
    envVars sys'' !! "?" = Some (Go.string_of_int n).
Proof.
  intros Hblank Hquit Hcd Hexport Harg Hsys Hexec.
  unfold Channel.shell_round. cbv zeta.
  rewrite Hblank, Hquit, Hcd, Hexport, Harg. cbn [sh_sys].
  rewrite Hsys, Hexec. cbn.
  eexists. split.
  - apply list_lookup_insert_eq. eapply lookup_lt_Some, Hsys.
  - cbn. apply lookup_insert_eq.
Qed.

End Facts.

(** *** The properties at concrete inputs *)



(** C5, counterexample.  A shell is started, an exec request follows:
    the dispatcher writes the exit status of ls to the quit signal, reads
    it back and closes the channel; the shell then sees the end of its
    input and writes to the quit signal as well.  Two writes on one
    channel. *)
Lemma quit_signal_written_twice :
  exists st,
    run_root [ev shell_req; EvShellStart 0; ev (exec_req "ls"); EvQuit;
              EvShellRead 0 EOF] = Some st /\
    trace st =
      [NewSystemCall 0 80 24; GoShell 0 UMLHook; Reply true;
       CommandTable "ls" []; QuitSend ByDispatcher 0; Reply true;
       ExitStatus 0; CloseChannel; QuitSend (ByShell 0) 0] /\
    count is_quit_send (trace st) = 2%nat.
Proof.
  eexists. split; [vm_compute; reflexivity|]. split; reflexivity.
Qed.

Lemma quit_signal_witness :
  (forall id,
      (shell_sends id
         (trace (after [ev shell_req; EvShellStart 0; ev (exec_req "ls"); EvQuit;
                        EvShellRead 0 EOF])) <= 1)%nat) /\
  (disp_sends
     (trace (after [ev shell_req; EvShellStart 0; ev (exec_req "ls"); EvQuit;
                    EvShellRead 0 EOF])) <=
   exec_requests [ev shell_req; EvShellStart 0; ev (exec_req "ls"); EvQuit;
                  EvShellRead 0 EOF])%nat /\
  (count is_quit_send
     (trace (after [ev shell_req; EvShellStart 0; ev (exec_req "ls"); EvQuit;
                    EvShellRead 0 EOF])) <= 2)%nat.
Proof.
  apply (quit_signal_writes_bounded cfg_retry "root" new_system chdir commands
           [] None "").
  vm_compute. reflexivity.
Defined.



(** C7, counterexample.  An env request LANG=C on a session that has a
    context: it is answered with success, but the context's environment
    has no LANG afterwards.  And an env request with an empty payload is
    answered with failure. *)
Lemma env_request_not_recorded :
  exists st,
    run_root [ev (pty_req 80 24); ev (env_req "LANG" "C")] = Some st /\
    trace st = [NewSystemCall 0 80 24; Reply true; LogEnv "LANG" "C"; Reply true] /\
    map (fun sys => envVars sys !! "LANG") (systems st) = [None] /\
    option_map trace (run_root [ev (mkRequest "env" [])]) = Some [Reply false].
Proof.
  eexists. split; [vm_compute; reflexivity|]. repeat split; reflexivity.
Qed.

Lemma env_request_witness :
  systems (dispatch cfg_retry "root" new_system commands (env_req "LANG" "C")
             (after [ev (pty_req 80 24)])) = systems (after [ev (pty_req 80 24)]) /\
  s_sys (dispatch cfg_retry "root" new_system commands (env_req "LANG" "C")
           (after [ev (pty_req 80 24)])) = s_sys (after [ev (pty_req 80 24)]) /\
  trace (dispatch cfg_retry "root" new_system commands (env_req "LANG" "C")
           (after [ev (pty_req 80 24)])) =
    trace (after [ev (pty_req 80 24)]) ++
      (let '(envReq, ok) :=
         Wire.Unmarshal envRequest_fields (Payload (env_req "LANG" "C")) envRequest_zero in
       if ok then [LogEnv (env_Name envReq) (env_Value envReq); Reply true]
       else [Reply false]).
Proof.
  apply (env_request_logged_not_recorded cfg_retry "root" new_system commands
           (env_req "LANG" "C") (after [ev (pty_req 80 24)])).
  reflexivity.
Defined.

(** C8, the code at the failing input.  ls is registered and exits with
    status 0; after the line ls the variable ? holds the one-byte string
    whose byte is 0, not the string 0. *)
Theorem exit_status_stored_as_code_point :
  exists st,
    run_root [ev shell_req; EvShellStart 0; EvShellRead 0 (Line "ls")] = Some st /\
    map (fun sys => envVars sys !! "?") (systems st) = [Some (String (ascii_of_nat 0) "")] /\
    map (fun sys => envVars sys !! "?") (systems st) <> [Some (Go.Itoa 0)].
Proof.
  eexists. split; [vm_compute; reflexivity|]. split; [reflexivity | discriminate].
Qed.

(** For no exit status from 0 to 255 is the stored string the decimal one. *)
Lemma string_of_int_is_never_decimal :
  forallb (fun n => negb (String.eqb (Go.string_of_int n) (Go.Itoa n)))
    (map Z.of_nat (seq 0 256)) = true.
Proof. vm_compute. reflexivity. Qed.


Example exec_scpfoo_trace :
  option_map trace (run_root [ev (exec_req "scpfoo -t /tmp")]) =
    Some [NewSystemCall 0 80 24; GoScp ["-t"; "/tmp"]; Reply true].
Proof. vm_compute. reflexivity. Qed.


(** A payload too short for even the width: here the zero size is applied. *)
Example window_change_short_payload :
  option_map trace (run_root [ev shell_req; EvShellStart 0;
                              ev (mkRequest "window-change" [])]) =
    Some [NewSystemCall 0 80 24; GoShell 0 UMLHook; Reply true;
          Reply false; TerminalSetSize 0 0 0].
Proof. vm_compute. reflexivity. Qed.


End ChannelFacts.

(** ** Password policy, further properties *)

Module AuthMore.
Import Auth Sample.

Section Facts.

Variable IsUserExist : string -> string * bool.
Variable cfg : Config.

Local Abbreviation deceptive :=
  (Forall (fun a : string * string =>
             enters_deception IsUserExist cfg (fst a) (snd a) = true)).

(** At counter one, with retries enabled, the deception branch accepts
    and leaves the counter at one. *)
Lemma attempts_at_one (l : list (string * string)) :
  allowRetryLogin cfg = true ->
  deceptive l ->
  attempts IsUserExist cfg 1 l = repeat (Accept successPerm) (length l).
Proof.
  intros Hretry Hall. induction Hall as [|[u p] l Ha _ IH]; [reflexivity|].
  cbn [attempts length repeat]. cbn in Ha.
  rewrite (AuthFacts.callback_deception_retry _ _ _ _ _ Hretry Ha).
  cbn. now rewrite IH.
Qed.

(** The whole course of a negotiation with retries enabled: from a seed
    of [k + 1], the first [k] attempts that enter the deception branch are
    rejected and every later one is accepted. *)
Theorem retry_rejects_seed_minus_one_then_accepts_all
    (k : nat) (l : list (string * string)) :
  allowRetryLogin cfg = true ->
  deceptive l ->
  Z.of_nat k + 1 < 2 ^ 63 ->
  PasswordChallenge IsUserExist cfg (Z.of_nat k + 1) l =
    repeat RejectAfterDelay (Nat.min k (length l))
      ++ repeat (Accept successPerm) (length l - k).
Proof.
  intros Hretry Hall. unfold PasswordChallenge. revert l Hall.
  induction k as [|k IH]; intros l Hall Hbound.
  - cbn [Z.of_nat Z.add Nat.min repeat app]. rewrite Nat.sub_0_r.
    now apply attempts_at_one.
  - destruct Hall as [|[u p] l Ha Hl]; [reflexivity|]. cbn in Ha.
    cbn [attempts length Nat.min Nat.sub repeat app].
    rewrite (AuthFacts.callback_deception_retry _ _ _ _ _ Hretry Ha).
    replace (Z.of_nat (S k) + 1 =? 1) with false by (symmetry; apply Z.eqb_neq; lia).
    rewrite AuthFacts.wrap_int_small by lia.
    replace (Z.of_nat (S k) + 1 - 1) with (Z.of_nat k + 1) by lia.
    rewrite IH; [reflexivity | assumption | lia].
Qed.

(** A seed of zero or less never reaches one: with retries enabled no
    attempt that enters the deception branch is ever accepted. *)
Theorem retry_with_nonpositive_seed_never_accepts
    (tries : Z) (l : list (string * string)) :
  allowRetryLogin cfg = true ->
  deceptive l ->
  tries <= 0 ->
  - 2 ^ 63 <= tries - Z.of_nat (length l) ->
  PasswordChallenge IsUserExist cfg tries l = repeat RejectAfterDelay (length l).
Proof.
  intros Hretry Hall. unfold PasswordChallenge. revert tries.
  induction Hall as [|[u p] l Ha _ IH]; intros tries Hle Hlow; [reflexivity|].
  cbn [attempts length repeat]. cbn in Ha. cbn [length] in Hlow.
  rewrite (AuthFacts.callback_deception_retry _ _ _ _ _ Hretry Ha).
  replace (tries =? 1) with false by (symmetry; apply Z.eqb_neq; lia).
  rewrite AuthFacts.wrap_int_small by lia.
  rewrite IH; [reflexivity | lia | lia].
Qed.

(** With allowRandomUser unset, attempts for unknown users are all
    rejected, whatever the passwords, the retry setting and the counter. *)
Theorem unknown_users_always_rejected (tries : Z) (l : list (string * string)) :
  allowRandomUser cfg = false ->
  Forall (fun a : string * string => snd (IsUserExist (fst a)) = false) l ->
  PasswordChallenge IsUserExist cfg tries l = repeat RejectAfterDelay (length l).
Proof.
  intros Hrandom Hall. unfold PasswordChallenge.
  induction Hall as [|[u p] l Ha _ IH]; [reflexivity|].
  cbn [attempts length repeat]. cbn in Ha.
  destruct (IsUserExist u) as [stpass known] eqn:Hu. cbn in Ha. subst known.
  rewrite (AuthFacts.callback_hard_reject _ _ _ _ _ _ Hu Hrandom).
  now rewrite IH.
Qed.

(** A known user is never turned away for a wrong password: with retries
    disabled every password is accepted at once, also when
    allowRandomUser is unset. *)
Theorem known_user_accepted_with_any_password
    (tries : Z) (user pass stpass : string) :
  allowRetryLogin cfg = false ->
  IsUserExist user = (stpass, true) ->
  callback IsUserExist cfg tries user pass = (Accept successPerm, tries).
Proof.
  intros Hretry Hu. unfold callback, exact_match, deception_test.
  rewrite Hu, Hretry. cbn.
  destruct (String.eqb stpass pass); reflexivity.
Qed.

End Facts.

Lemma retry_course_witness :
  PasswordChallenge users_root cfg_retry (Z.of_nat 2 + 1)
    [("root", "a"); ("admin", "b"); ("root", "c"); ("guest", "d"); ("root", "e")] =
  repeat RejectAfterDelay (Nat.min 2 5) ++ repeat (Accept successPerm) (5 - 2).
Proof.
  apply (retry_rejects_seed_minus_one_then_accepts_all users_root cfg_retry 2);
    [reflexivity | repeat constructor | reflexivity].
Defined.

Lemma retry_nonpositive_witness :
  PasswordChallenge users_root cfg_retry 0 [("root", "a"); ("admin", "b"); ("root", "c")] =
  repeat RejectAfterDelay 3.
Proof.
  apply (retry_with_nonpositive_seed_never_accepts users_root cfg_retry 0);
    [reflexivity | repeat constructor | lia | simpl; lia].
Defined.

Lemma unknown_users_witness :
  PasswordChallenge users_root cfg_strict 3 [("admin", "admin"); ("guest", "guest")] =
  repeat RejectAfterDelay 2.
Proof.
  apply (unknown_users_always_rejected users_root cfg_strict 3);
    [reflexivity | repeat constructor].
Defined.

Lemma known_user_witness :
  callback users_root cfg_strict 3 "root" "not-the-password" = (Accept successPerm, 3).
Proof.
  apply (known_user_accepted_with_any_password users_root cfg_strict 3 "root"
           "not-the-password" "toor"); reflexivity.
Defined.

End AuthMore.

(** ** Channel opens, further properties *)

Module ForwardMore.
Import Forward Sample More MoreSample.

Section Facts.

Variable cfg : Config.









(** Whatever the configuration and the channel: at most one connection
    is dialed per open, only for a direct-tcpip channel, and only after
    the channel has been accepted. *)
Theorem dial_only_once_and_only_after_accept (ch : NewChannel) :
  (length (List.filter is_dial (fst (handleChannel cfg ch))) <= 1)%nat /\
  (existsb is_dial (fst (handleChannel cfg ch)) = true ->
   ChannelType ch = "direct-tcpip" /\
   exists pre post,
     fst (handleChannel cfg ch) = pre ++ Accept :: post /\
     existsb is_dial pre = false).
Proof.
  unfold handleChannel.
  destruct (String.eqb (ChannelType ch) "direct-tcpip") eqn:Hd.
  - apply String.eqb_eq in Hd. rewrite Hd. cbn [orb].
    replace ("direct-tcpip" =? "forwarded-tcpip")%string with false by reflexivity.
    destruct (Wire.Unmarshal tunnelRequest_fields (ExtraData ch) tunnelRequest_zero)
      as [treq ok].
    destruct (resolve cfg treq) as [|host|m].
    + destruct ok; cbn; (split; [lia | intros H; discriminate H]).
    + destruct (0 <? Z.of_nat (String.length host)).
      * unfold relay.
        destruct ok, (accept_ok ch), (dial_ok ch); cbn; (split; [lia|]); intros _;
          (split; [reflexivity|]).
        all: first
          [ now exists [], [DiscardRequests; Dial "tcp" host; Relay]
          | now exists [], [DiscardRequests; Dial "tcp" host;
                            Reject ConnectionFailed "Cannot establish connection"]
          | now exists [], [Reject ResourceShortage "Cannot create new channel";
                            DiscardRequests; Dial "tcp" host; Relay]
          | now exists [], [Reject ResourceShortage "Cannot create new channel";
                            DiscardRequests; Dial "tcp" host;
                            Reject ConnectionFailed "Cannot establish connection"]
          | now exists [Reject UnknownChannelType "Corrupt payload"],
                       [DiscardRequests; Dial "tcp" host; Relay]
          | now exists [Reject UnknownChannelType "Corrupt payload"],
                       [DiscardRequests; Dial "tcp" host;
                        Reject ConnectionFailed "Cannot establish connection"]
          | now exists [Reject UnknownChannelType "Corrupt payload"],
                       [Reject ResourceShortage "Cannot create new channel";
                        DiscardRequests; Dial "tcp" host; Relay]
          | now exists [Reject UnknownChannelType "Corrupt payload"],
                       [Reject ResourceShortage "Cannot create new channel";
                        DiscardRequests; Dial "tcp" host;
                        Reject ConnectionFailed "Cannot establish connection"] ].
      * destruct ok; cbn; (split; [lia | intros H; discriminate H]).
    + destruct ok; cbn; (split; [lia | intros H; discriminate H]).
  - cbn [orb].
    destruct (String.eqb (ChannelType ch) "forwarded-tcpip").
    + destruct (Wire.Unmarshal tunnelRequest_fields (ExtraData ch) tunnelRequest_zero)
        as [treq [|]]; cbn; (split; [lia | intros H; discriminate H]).
    + destruct (String.eqb (ChannelType ch) "session"); cbn; (split; [lia | intros H; discriminate H]).
Qed.


(** A panic ends the service of the connection: the opens that precede
    it are served, the ones that follow are never looked at. *)
Theorem panic_ends_the_loop
    (before after : list NewChannel) (ch : NewChannel)
    (es : list effect) (m : string) :
  snd (handleNewConn cfg before) = Next ->
  handleChannel cfg ch = (es, Panicked m) ->
  handleNewConn cfg (before ++ ch :: after) =
    (fst (handleNewConn cfg before) ++ es, Panicked m).
Proof.
  intros Hbefore Hch.
  induction before as [|b before IH].
  - cbn [app handleNewConn fst]. now rewrite Hch.
  - cbn [app handleNewConn] in *.
    destruct (handleChannel cfg b) as [eb [|mb]]; [|discriminate Hbefore].
    destruct (handleNewConn cfg before) as [es' st'] eqn:Hrec.
    cbn [snd fst] in *. rewrite (IH Hbefore). cbn [fst]. now rewrite app_assoc.
Qed.

End Facts.




Example direct_policy_port_22 :
  handleChannel cfg_direct (open_port 22) =
    ([Accept; DiscardRequests; Dial "tcp" "example.com:22"; Relay], Next).
Proof. vm_compute. reflexivity. Qed.


Example corrupt_payload_dials_port_zero :
  handleChannel cfg_direct corrupt_open =
    ([Reject UnknownChannelType "Corrupt payload"; Accept; DiscardRequests;
      Dial "tcp" ":0"; Relay], Next).
Proof. vm_compute. reflexivity. Qed.



Lemma panic_ends_the_loop_witness :
  handleNewConn cfg_map ([open_port 80] ++ open_port 22 :: [open_port 80; forwarded_open]) =
    (fst (handleNewConn cfg_map [open_port 80]) ++ [],
     Panicked "interface conversion: interface {} is nil, not string").
Proof.
  apply (panic_ends_the_loop cfg_map [open_port 80] [open_port 80; forwarded_open]
           (open_port 22)); vm_compute; reflexivity.
Defined.

End ForwardMore.

(** ** Session channels, further properties *)

Module ChannelMore.
Import Channel Sample More MoreSample.

(** *** The exit-status payload *)

Lemma byteZ_zbyte (z : Z) : Wire.byteZ (Wire.zbyte z) = z mod 2 ^ 8.
Proof.
  unfold Wire.byteZ, Wire.zbyte. change (2 ^ 8) with 256.
  assert (Hto : forall a, Byte.to_N (byte_of_ascii a) = N_of_ascii a).
  { intros a. rewrite <- (ascii_of_byte_of_ascii a) at 2.
    rewrite ascii_of_byte_via_N. symmetry. apply N_ascii_embedding.
    pose proof (Byte.to_N_bounded (byte_of_ascii a)). lia. }
  assert (0 <= z mod 256 < 256) by (apply Z.mod_pos_bound; lia).
  rewrite Hto, N_ascii_embedding by lia.
  apply Z2N.id. lia.
Qed.

(** Bit [i] of the byte of [m] that starts at bit [k], put back at [k]. *)
Lemma byte_slice_bit (m k i : Z) :
  0 <= k -> 0 <= i ->
  Z.testbit (Z.shiftl (Z.shiftr m k mod 2 ^ 8) k) i =
    if (k <=? i) && (i <? k + 8) then Z.testbit m i else false.
Proof.
  intros Hk Hi. rewrite Z.shiftl_spec by lia.
  destruct (Z.leb_spec k i) as [Hki|Hki]; cbn [andb].
  - destruct (Z.ltb_spec i (k + 8)) as [Hhi|Hhi].
    + rewrite Z.mod_pow2_bits_low by lia. rewrite Z.shiftr_spec by lia.
      f_equal. lia.
    + apply Z.mod_pow2_bits_high. lia.
  - apply Z.testbit_neg_r. lia.
Qed.

Lemma parse_put_uint32 (m : Z) (rest : list byte) :
  0 <= m < 2 ^ 32 ->
  Wire.parseUint32 (Wire.putUint32 m ++ rest) = Some (m, rest).
Proof.
  intros Hm. unfold Wire.putUint32, Wire.parseUint32. cbn [app].
  rewrite !byteZ_zbyte. do 2 f_equal.
  apply Z.bits_inj'. intros i Hi.
  rewrite !Z.lor_spec.
  rewrite (byte_slice_bit m 24 i), (byte_slice_bit m 16 i), (byte_slice_bit m 8 i) by lia.
  replace (m mod 2 ^ 8) with (Z.shiftl (Z.shiftr m 0 mod 2 ^ 8) 0)
    by now rewrite Z.shiftl_0_r, Z.shiftr_0_r.
  rewrite (byte_slice_bit m 0 i) by lia.
  destruct (Z.ltb_spec i 32) as [Hlt|Hge].
  - destruct (Z.leb_spec 24 i), (Z.leb_spec 16 i), (Z.leb_spec 8 i), (Z.leb_spec 0 i),
      (Z.ltb_spec i (24 + 8)), (Z.ltb_spec i (16 + 8)), (Z.ltb_spec i (8 + 8)),
      (Z.ltb_spec i (0 + 8)); cbn; try lia;
      rewrite ?orb_false_r; reflexivity.
  - assert (Hhigh : Z.testbit m i = false).
    { rewrite <- (Z.mod_small m (2 ^ 32)) by lia. apply Z.mod_pow2_bits_high. lia. }
    rewrite Hhigh. now repeat match goal with |- context [if ?b then _ else _] => destruct b end.
Qed.

(** The exit-status request carries the signal reduced modulo 2^32, in
    four bytes that read back big endian: a negative signal wraps (the -1
    of a command that is not found reads back as 4294967295). *)
Theorem exit_status_payload_reads_back (signal : Z) :
  length (exit_status_payload signal) = 4%nat /\
  Wire.parseUint32 (exit_status_payload signal) = Some (signal mod 2 ^ 32, []).
Proof.
  split; [reflexivity|].
  unfold exit_status_payload.
  rewrite <- (app_nil_r (Wire.putUint32 _)).
  apply parse_put_uint32. apply Z.mod_pos_bound. lia.
Qed.

End ChannelMore.

(** ** The dispatcher, further properties *)

Module DispatcherMore.
Import Channel Sample More MoreSample.

Section Facts.

Variable cfg : Config.
Variable user : string.
Variable NewSystem : string -> string -> Z -> Z -> System.
Variable Chdir : string -> System -> option System.
Variable funcMap : gmap string Command.

Local Abbreviation dispatch := (Channel.dispatch cfg user NewSystem funcMap).
Local Abbreviation step := (Channel.step cfg user NewSystem Chdir funcMap).
Local Abbreviation run := (Channel.run cfg user NewSystem Chdir funcMap).
Local Abbreviation shell_round := (Channel.shell_round Chdir funcMap).

(** *** Pointers stay in range *)

Lemma Forall_sh_sys_mono (n m : nat) (l : list Shell) :
  (n <= m)%nat ->
  Forall (fun s => (sh_sys s < n)%nat) l ->
  Forall (fun s => (sh_sys s < m)%nat) l.
Proof.
  intros Hnm H. eapply Forall_impl; [exact H|]. cbn. intros s Hs. lia.
Qed.

Ltac wf_mono H2 :=
  eapply Forall_impl; [exact H2|];
  cbn; intros ? ?; rewrite ?length_insert, ?length_app; cbn; lia.

Ltac wf_goal H1 H2 H3 :=
  cbn; rewrite ?length_app, ?length_insert; cbn;
  first
    [ lia
    | exact I
    | wf_mono H2
    | apply Forall_app; split;
      [ wf_mono H2
      | repeat constructor; cbn; rewrite ?length_insert, ?length_app; cbn; lia ] ].

Lemma dispatch_wf (req : Request) (st : state) : wf st -> wf (dispatch req st).
Proof.
  unfold wf. intros (H1 & H2 & H3).
  unfold Channel.dispatch, Channel.on_pty_req, on_env, Channel.on_shell, on_subsystem,
    on_window_change, Channel.on_exec, SetSize, disp_send, panic, Channel.alloc.
  cbv zeta. revert H1 H3.
  destruct (s_sys st) as [p|] eqn:Hsys; destruct (sh st) as [id|] eqn:Hsh; intros H1 H3;
    cbn in H1, H3; cbn;
    repeat case_match; subst; cbn; rewrite ?Hsys, ?Hsh;
    (split; [|split]); unfold in_range; wf_goal H1 H2 H3.
Qed.

Lemma wf_same_shape (st st' : state) :
  length (systems st') = length (systems st) ->
  s_sys st' = s_sys st ->
  shells st' = shells st ->
  sh st' = sh st ->
  wf st -> wf st'.
Proof. unfold wf. intros -> -> -> ->. tauto. Qed.

Lemma set_shell_status_wf (id : nat) (s : shell_status) (st : state) :
  wf st -> wf (set_shell_status id s st).
Proof.
  unfold wf, set_shell_status. intros (H1 & H2 & H3).
  destruct (shells st !! id) as [shobj|] eqn:Hid; [|tauto]. cbn.
  split; [exact H1|]. split.
  - apply Forall_insert; [exact H2|]. cbn.
    rewrite Forall_lookup in H2. exact (H2 id shobj Hid).
  - now rewrite length_insert.
Qed.

Lemma shell_send_wf (id : nat) (n : Z) (st : state) :
  wf st -> wf (shell_send id n st).
Proof.
  intros Hwf. unfold shell_send. destruct (quitSignal st).
  - now apply set_shell_status_wf.
  - apply (wf_same_shape (set_shell_status id Finished (set_quit (Some n) st)));
      try reflexivity.
    apply set_shell_status_wf. exact Hwf.
Qed.

Lemma shell_round_wf (id : nat) (shobj : Shell) (r : ReadResult) (st : state) :
  wf st -> wf (shell_round id shobj r st).
Proof.
  intros Hwf. unfold Channel.shell_round.
  repeat case_match;
    first
      [ exact Hwf
      | now apply shell_send_wf
      | now apply set_shell_status_wf
      | apply shell_send_wf; exact Hwf
      | (apply (wf_same_shape st); [cbn; rewrite ?length_insert; reflexivity
                                   | reflexivity | reflexivity | reflexivity | exact Hwf]) ].
Qed.

Lemma step_wf (st st' : state) (ev : event) :
  step st ev = Some st' -> wf st -> wf st'.
Proof.
  unfold Channel.step. destruct (crashed st); [discriminate|].
  destruct ev as [[req|] | | | id | id r | id].
  - destruct (disp st); try discriminate. intros [= <-]. apply dispatch_wf.
  - destruct (disp st); try discriminate. now intros [= <-].
  - destruct (disp st); try discriminate. destruct (quitSignal st); try discriminate.
    now intros [= <-].
  - destruct (disp st); try discriminate. destruct (quitSignal st); try discriminate.
    now intros [= <-].
  - destruct (shells st !! id) as [[p []]|]; try discriminate.
    intros [= <-]. apply set_shell_status_wf.
  - destruct (shells st !! id) as [[p []]|]; try discriminate.
    intros [= <-]. apply shell_round_wf.
  - destruct (shells st !! id) as [[p [| |n|]]|]; try discriminate.
    destruct (quitSignal st); try discriminate.
    intros [= <-] Hwf.
    apply (wf_same_shape (set_shell_status id Finished (set_quit (Some n) st)));
      try reflexivity.
    apply set_shell_status_wf. exact Hwf.
Qed.

Lemma run_wf (evs : list event) (st st' : state) :
  run st evs = Some st' -> wf st -> wf st'.
Proof.
  revert st. induction evs as [|ev evs IH]; intros st Hrun Hwf.
  - now injection Hrun as <-.
  - cbn [Channel.run] in Hrun.
    destruct (step st ev) as [st1|] eqn:Hstep; [|discriminate].
    eauto using step_wf.
Qed.

(** Over any schedule of a channel whose session context, if it has
    one, is an allocated system: the session's context, every shell's
    context and the dispatcher's shell always refer to objects that
    exist. *)
Lemma pointers_stay_in_range
    (sys : list System) (p : option nat) (term : string)
    (evs : list event) (st : state) :
  in_range (length sys) p ->
  run (fresh sys p term) evs = Some st ->
  wf st.
Proof.
  intros Hp Hrun. apply (run_wf evs _ _ Hrun).
  unfold wf, fresh. cbn. split; [exact Hp|]. split; [constructor | exact I].
Qed.

(** *** A dispatcher blocked in its send *)

Lemma step_blocked (st st' : state) (ev : event) (n q : Z) :
  disp st = DispSending n ->
  quitSignal st = Some q ->
  step st ev = Some st' ->
  disp st' = DispSending n /\ quitSignal st' = Some q /\
  count is_reply (trace st') = count is_reply (trace st).
Proof.
  intros Hd Hq. unfold Channel.step, crashed. rewrite Hd, Hq.
  destruct ev as [[req|] | | | id | id r | id]; try discriminate.
  - destruct (shells st !! id) as [[p []]|]; try discriminate. intros [= <-].
    destruct (ChannelFacts.set_shell_status_proj id Reading st) as (-> & -> & -> & _).
    auto.
  - destruct (shells st !! id) as [[p []]|] eqn:Hid; try discriminate. intros [= <-].
    unfold Channel.shell_round, shell_send. rewrite Hq.
    repeat case_match; try (exfalso; cbn in *; congruence);
      rewrite ?(proj1 (ChannelFacts.set_shell_status_proj _ _ _)),
        ?(proj1 (proj2 (ChannelFacts.set_shell_status_proj _ _ _))),
        ?(proj1 (proj2 (proj2 (ChannelFacts.set_shell_status_proj _ _ _))));
      cbn; rewrite ?ChannelFacts.count_app, ?ChannelFacts.count_cons,
             ?ChannelFacts.count_nil; cbn;
      repeat split; try assumption; lia.
  - destruct (shells st !! id) as [[p [| |m|]]|]; discriminate.
Qed.

(** Once the dispatcher is blocked sending an exit status into a full
    quit signal (a further exec handled before the first status was
    read), nothing unblocks it: on every schedule it stays in that send,
    the slot keeps its value, and no request is answered any more. *)
Theorem blocked_dispatcher_stays_blocked
    (evs : list event) (st st' : state) (n q : Z) :
  disp st = DispSending n ->
  quitSignal st = Some q ->
  run st evs = Some st' ->
  disp st' = DispSending n /\ quitSignal st' = Some q /\
  count is_reply (trace st') = count is_reply (trace st).
Proof.
  revert st. induction evs as [|ev evs IH]; intros st Hd Hq Hrun.
  - injection Hrun as <-. auto.
  - cbn [Channel.run] in Hrun.
    destruct (step st ev) as [st1|] eqn:Hstep; [|discriminate].
    destruct (step_blocked _ _ _ _ _ Hd Hq Hstep) as (Hd1 & Hq1 & Hc1).
    destruct (IH st1 Hd1 Hq1 Hrun) as (Hd' & Hq' & Hc').
    repeat split; try assumption. congruence.
Qed.

(** *** Requests that crash the dispatcher *)

(** An exec or subsystem request whose payload is shorter than the four
    bytes of the length prefix makes the slice expression panic: nothing
    is replied, and as nothing recovers the panic no further event of the
    channel happens. *)
Theorem short_payload_crashes_dispatcher (req : Request) (st : state) :
  disp st = Selecting ->
  String.eqb (ReqType req) "exec" || String.eqb (ReqType req) "subsystem" = true ->
  (length (Payload req) < 4)%nat ->
  exists st',
    step st (EvRequest (Some req)) = Some st' /\
    disp st' = DispPanicked "slice bounds out of range" /\
    trace st' = trace st /\
    forall ev, step st' ev = None.
Proof.
  intros Hsel Hty Hlen.
  assert (Hpay : payload_from4 req = None).
  { unfold payload_from4.
    replace (Z.of_nat (length (Payload req)) <? 4) with true; [reflexivity|].
    symmetry. apply Z.ltb_lt. lia. }
  assert (Hst : dispatch req st = panic "slice bounds out of range" st).
  { apply orb_true_iff in Hty as [Hty|Hty]; apply String.eqb_eq in Hty.
    - rewrite (ChannelFacts.dispatch_exec _ _ _ _ _ _ Hty).
      unfold Channel.on_exec. now rewrite Hpay.
    - rewrite (ChannelFacts.dispatch_subsystem _ _ _ _ _ _ Hty).
      unfold on_subsystem. now rewrite Hpay. }
  exists (panic "slice bounds out of range" st).
  rewrite (ChannelFacts.step_request _ _ _ _ _ _ _ Hsel), Hst.
  repeat split.
Qed.

Lemma Split_not_nil (s : string) (sep : ascii) : Go.Split s sep <> [].
Proof.
  destruct s as [|c s]; cbn; [discriminate|].
  destruct (Ascii.eqb c sep); [discriminate|].
  destruct (Go.Split s sep); discriminate.
Qed.

Lemma Exec_total (path : string) (args : list string) (sys : System) :
  total_commands funcMap -> Exec funcMap path args sys <> ExecPanic.
Proof.
  intros Htot. unfold Exec.
  destruct (funcMap !! Go.Base path) as [cmd|] eqn:Hcmd; [|discriminate].
  destruct (Htot _ cmd args sys Hcmd) as [[res sys'] ->]. discriminate.
Qed.

Lemma in_range_lookup {A : Type} (l : list A) (p : nat) :
  (p < length l)%nat -> l !! p = None -> False.
Proof. intros Hlt Hnone. apply lookup_ge_None in Hnone. lia. Qed.

Lemma payload_short (req : Request) :
  payload_from4 req = None -> (length (Payload req) < 4)%nat.
Proof.
  unfold payload_from4.
  destruct (Z.ltb_spec (Z.of_nat (length (Payload req))) 4); [lia | discriminate].
Qed.

Lemma on_window_change_crash (req : Request) (st : state) (m : string) :
  wf st ->
  disp st = Selecting ->
  disp (on_window_change req st) = DispPanicked m ->
  exists id p, sh st = Some id /\ shells st !! id = Some (mkShell p Spawned).
Proof.
  intros (H1 & H2 & H3) Hsel. unfold on_window_change.
  destruct (sh st) as [id|] eqn:Hsh; [|congruence]. cbn in H3.
  destruct (Wire.Unmarshal winChgRequest_fields (Payload req) winChgRequest_zero)
    as [winChg ok].
  unfold SetSize.
  assert (Hshells : forall st1, shells st1 = shells st -> systems st1 = systems st ->
            disp st1 = Selecting ->
            disp (SetSize id (win_Width winChg) (win_Height winChg) st1) = DispPanicked m ->
            exists id0 p, Some id = Some id0 /\
                          shells st !! id0 = Some (mkShell p Spawned)).
  { intros st1 Hs Hsy Hd. unfold SetSize. rewrite Hs, Hsy.
    destruct (shells st !! id) as [[p status]|] eqn:Hid.
    - cbn [sh_sys sh_status].
      destruct (systems st !! p) as [sys|] eqn:Hp.
      + destruct status; cbn; rewrite ?Hd; try discriminate.
        intros _. now exists id, p.
      + exfalso. rewrite Forall_lookup in H2. pose proof (H2 id _ Hid) as Hlt.
        cbn in Hlt. now apply (in_range_lookup _ _ Hlt).
    - exfalso. now apply (in_range_lookup _ _ H3). }
  destruct ok; cbv zeta; apply Hshells; reflexivity || assumption.
Qed.

Lemma on_exec_crash (req : Request) (st : state) (m : string) :
  wf st ->
  total_commands funcMap ->
  disp st = Selecting ->
  disp (Channel.on_exec cfg user NewSystem funcMap req st) = DispPanicked m ->
  (length (Payload req) < 4)%nat.
Proof.
  intros (H1 & H2 & H3) Htot Hsel. unfold Channel.on_exec.
  destruct (payload_from4 req) as [cmd|] eqn:Hpay; [|intros _; now apply payload_short].
  cbv zeta. intros Hcrash. exfalso. revert Hcrash.
  destruct (Go.Split cmd " ") as [|arg0 rest] eqn:Hsplit; [now apply Split_not_nil in Hsplit|].
  cbn [Go.index0 head].
  assert (Hgo : forall p st1 sys,
            disp st1 = Selecting -> systems st1 !! p = Some sys ->
            disp (if Go.HasPrefix arg0 "scp"
                  then emit [GoScp (Go.from1 (arg0 :: rest)); Reply true] st1
                  else
                    match systems st1 !! p with
                    | None => panic "nil pointer dereference" st1
                    | Some sys =>
                        let st2 :=
                          emit [CommandTable (Go.Base arg0) (Go.from1 (arg0 :: rest))] st1 in
                        match Exec funcMap arg0 (Go.from1 (arg0 :: rest)) sys with
                        | ExecPanic => panic "command panicked" st2
                        | ExecOk n sys' =>
                            disp_send n (set_systems (<[p := sys']> (systems st2)) st2)
                        | ExecNotExist =>
                            disp_send (-1)
                              (emit [ChannelWrite (cmd +:+ ": command not found" +:+ CRLF)]
                                 st2)
                        end
                    end) <> DispPanicked m).
  { intros p st1 sys Hd Hp.
    destruct (Go.HasPrefix arg0 "scp"); [cbn; congruence|].
    rewrite Hp. cbv zeta.
    pose proof (Exec_total arg0 (Go.from1 (arg0 :: rest)) sys Htot) as Hne.
    destruct (Exec funcMap arg0 (Go.from1 (arg0 :: rest)) sys); [| |congruence];
      unfold disp_send; cbn; destruct (quitSignal st1); cbn; congruence. }
  destruct (s_sys st) as [p|] eqn:Hsys.
  - cbn in H1. destruct (lookup_lt_is_Some_2 _ _ H1) as [sys Hp].
    now apply (Hgo p st sys).
  - unfold Channel.alloc. apply (Hgo _ _ (NewSystem user (hostname cfg) 80 24)).
    + exact Hsel.
    + cbn. apply list_lookup_middle. reflexivity.
Qed.

Lemma dispatch_crash_causes_wf (req : Request) (st : state) (m : string) :
  wf st ->
  total_commands funcMap ->
  disp st = Selecting ->
  disp (dispatch req st) = DispPanicked m ->
  (String.eqb (ReqType req) "exec" || String.eqb (ReqType req) "subsystem" = true /\
   (length (Payload req) < 4)%nat) \/
  (ReqType req = "window-change" /\
   exists id p, sh st = Some id /\ shells st !! id = Some (mkShell p Spawned)).
Proof.
  intros Hwf Htot Hsel. unfold Channel.dispatch. cbv zeta.
  destruct (String.eqb (ReqType req) "winadj@putty.projects.tartarus.org"
            || String.eqb (ReqType req) "simple@putty.projects.tartarus.org");
    [congruence|].
  destruct (String.eqb (ReqType req) "pty-req").
  { unfold Channel.on_pty_req.
    destruct (Wire.Unmarshal ptyRequest_fields (Payload req) ptyRequest_zero) as [r [|]];
      cbn; congruence. }
  destruct (String.eqb (ReqType req) "env").
  { unfold on_env.
    destruct (Wire.Unmarshal envRequest_fields (Payload req) envRequest_zero) as [r [|]];
      cbn; congruence. }
  destruct (String.eqb (ReqType req) "shell").
  { destruct (ChannelFacts.on_shell_spec cfg user NewSystem req st)
      as (_ & _ & _ & _ & _ & Hd & _). rewrite Hd. congruence. }
  destruct (String.eqb (ReqType req) "subsystem") eqn:Hsub.
  { unfold on_subsystem.
    destruct (payload_from4 req) as [subsys|] eqn:Hpay.
    - destruct (String.eqb subsys "sftp"); cbn; congruence.
    - intros _. left. rewrite orb_true_r. split; [reflexivity | now apply payload_short]. }
  destruct (String.eqb (ReqType req) "window-change") eqn:Hwin.
  { intros Hcrash. right. split; [now apply String.eqb_eq|].
    now apply (on_window_change_crash req st m). }
  destruct (String.eqb (ReqType req) "exec") eqn:Hexec; [|congruence].
  intros Hcrash. left. split; [reflexivity|].
  now apply (on_exec_crash req st m).
Qed.

(** In any state a channel can reach, the only requests on which the
    dispatcher's own code panics, when no registered command panics, are:
    an exec or subsystem request with a payload shorter than four bytes,
    and a window-change request that arrives after a shell was granted and
    before that shell has built its terminal. *)
Theorem dispatcher_crash_causes
    (sys : list System) (p : option nat) (term : string) (evs : list event)
    (req : Request) (st : state) (m : string) :
  in_range (length sys) p ->
  run (fresh sys p term) evs = Some st ->
  total_commands funcMap ->
  disp st = Selecting ->
  disp (dispatch req st) = DispPanicked m ->
  (String.eqb (ReqType req) "exec" || String.eqb (ReqType req) "subsystem" = true /\
   (length (Payload req) < 4)%nat) \/
  (ReqType req = "window-change" /\
   exists id q, sh st = Some id /\ shells st !! id = Some (mkShell q Spawned)).
Proof.
  intros Hp Hrun. apply dispatch_crash_causes_wf.
  exact (pointers_stay_in_range sys p term evs st Hp Hrun).
Qed.

(** *** exec *)

(** An exec request never sets the session's context: with a context it
    uses it, without one it allocates a system for this request alone, so
    that the session still has no context afterwards. *)
Theorem exec_never_stores_context (req : Request) (st : state) :
  ReqType req = "exec" ->
  s_sys (dispatch req st) = s_sys st /\
  (forall cmd, s_sys st = None -> payload_from4 req = Some cmd ->
     length (systems (dispatch req st)) = S (length (systems st)) /\
     count is_new_system (trace (dispatch req st)) = S (count is_new_system (trace st))).
Proof.
  intros Hty. rewrite (ChannelFacts.dispatch_exec _ _ _ _ _ _ Hty).
  unfold Channel.on_exec, disp_send, panic, Channel.alloc. cbv zeta. split.
  - destruct (s_sys st) eqn:Hsys; repeat case_match; cbn; congruence.
  - intros cmd Hnone Hpay. rewrite Hnone, Hpay.
    repeat case_match; cbn;
      rewrite ?length_insert, ?length_app, ?ChannelFacts.count_app,
        ?ChannelFacts.count_cons, ?ChannelFacts.count_nil; cbn; split; lia.
Qed.



(** *** window-change *)

(** A window-change request is never answered with success, whatever
    its payload, and without a shell on the channel it changes nothing at
    all. *)
Theorem window_change_never_acknowledged (req : Request) (st : state) :
  ReqType req = "window-change" ->
  count is_reply_true (trace (dispatch req st)) = count is_reply_true (trace st) /\
  (sh st = None -> dispatch req st = st).
Proof.
  intros Hty. rewrite (ChannelFacts.dispatch_window_change _ _ _ _ _ _ Hty).
  unfold on_window_change, SetSize, panic. split.
  - repeat case_match; cbn;
      rewrite ?ChannelFacts.count_app, ?ChannelFacts.count_cons, ?ChannelFacts.count_nil;
      cbn; lia.
  - now intros ->.
Qed.

(** A window-change request that arrives after a shell request was
    granted and before the shell goroutine has built its terminal crashes
    the dispatcher, whatever its payload: the terminal that is not there
    yet is called, and no further event of the channel happens. *)
Theorem window_change_before_terminal_crashes
    (req : Request) (st : state) (id p : nat) (sys : System) :
  ReqType req = "window-change" ->
  sh st = Some id ->
  shells st !! id = Some (mkShell p Spawned) ->
  systems st !! p = Some sys ->
  disp (dispatch req st) = DispPanicked "nil pointer dereference" /\
  forall ev, step (dispatch req st) ev = None.
Proof.
  intros Hty Hsh Hid Hp. rewrite (ChannelFacts.dispatch_window_change _ _ _ _ _ _ Hty).
  unfold on_window_change. rewrite Hsh.
  destruct (Wire.Unmarshal winChgRequest_fields (Payload req) winChgRequest_zero)
    as [winChg [|]]; cbv zeta; unfold SetSize; cbn; rewrite Hid; cbn; rewrite Hp; cbn;
    split; reflexivity.
Qed.

End Facts.

Lemma commands_total : total_commands commands.
Proof.
  intros name cmd args sys Hcmd. unfold commands in Hcmd.
  apply lookup_singleton_Some in Hcmd as [_ <-]. now eexists.
Qed.

Lemma blocked_dispatcher_witness :
  disp (default init
          (Channel.run cfg_retry "root" new_system chdir commands st_blocked
             [EvShellRead 0 (Line "ls"); EvShellRead 0 EOF])) = DispSending 0 /\
  quitSignal (default init
          (Channel.run cfg_retry "root" new_system chdir commands st_blocked
             [EvShellRead 0 (Line "ls"); EvShellRead 0 EOF])) = Some 0 /\
  count is_reply (trace (default init
          (Channel.run cfg_retry "root" new_system chdir commands st_blocked
             [EvShellRead 0 (Line "ls"); EvShellRead 0 EOF]))) =
    count is_reply (trace st_blocked).
Proof.
  apply (blocked_dispatcher_stays_blocked cfg_retry "root" new_system chdir commands
           [EvShellRead 0 (Line "ls"); EvShellRead 0 EOF] st_blocked);
    vm_compute; reflexivity.
Defined.

Lemma short_payload_witness :
  exists st',
    step_root init (EvRequest (Some (mkRequest "exec" []))) = Some st' /\
    disp st' = DispPanicked "slice bounds out of range" /\
    trace st' = trace init /\
    forall ev, Channel.step cfg_retry "root" new_system chdir commands st' ev = None.
Proof.
  apply (short_payload_crashes_dispatcher cfg_retry "root" new_system chdir commands
           (mkRequest "exec" []) init); [reflexivity | reflexivity | simpl; lia].
Defined.

Lemma crash_causes_witness :
  (String.eqb (ReqType (window_change_req 132 43)) "exec"
   || String.eqb (ReqType (window_change_req 132 43)) "subsystem" = true /\
   (length (Payload (window_change_req 132 43)) < 4)%nat) \/
  (ReqType (window_change_req 132 43) = "window-change" /\
   exists id q, sh st_granted = Some id /\ shells st_granted !! id = Some (mkShell q Spawned)).
Proof.
  apply (dispatcher_crash_causes cfg_retry "root" new_system chdir commands
           [] None "" [ev shell_req] (window_change_req 132 43) st_granted
           "nil pointer dereference");
    [exact I | vm_compute; reflexivity | exact commands_total | reflexivity
    | vm_compute; reflexivity].
Defined.

Lemma exec_never_stores_witness :
  s_sys (dispatch_root (exec_req "ls") init) = s_sys init /\
  (forall cmd, s_sys init = None -> payload_from4 (exec_req "ls") = Some cmd ->
     length (systems (dispatch_root (exec_req "ls") init)) = S (length (systems init)) /\
     count is_new_system (trace (dispatch_root (exec_req "ls") init)) =
       S (count is_new_system (trace init))).
Proof.
  apply (exec_never_stores_context cfg_retry "root" new_system commands
           (exec_req "ls") init). reflexivity.
Defined.

Example two_execs_allocate_two_systems :
  option_map (fun st => (s_sys st, length (systems st)))
    (run_root [ev (exec_req "scp -t /tmp"); ev (exec_req "scp -t /tmp")]) =
  Some (None, 2%nat).
Proof. vm_compute. reflexivity. Qed.


Lemma window_change_never_acknowledged_witness :
  count is_reply_true (trace (dispatch_root (window_change_req 132 43) st_running)) =
    count is_reply_true (trace st_running) /\
  (sh st_running = None -> dispatch_root (window_change_req 132 43) st_running = st_running).
Proof.
  apply (window_change_never_acknowledged cfg_retry "root" new_system commands
           (window_change_req 132 43) st_running). reflexivity.
Defined.

Lemma window_change_race_witness :
  disp (dispatch_root (window_change_req 132 43) st_granted) =
    DispPanicked "nil pointer dereference" /\
  forall ev,
    Channel.step cfg_retry "root" new_system chdir commands
      (dispatch_root (window_change_req 132 43) st_granted) ev = None.
Proof.
  apply (window_change_before_terminal_crashes cfg_retry "root" new_system chdir commands
           (window_change_req 132 43) st_granted 0%nat 0%nat
           (new_system "root" "spr" 80 24)); reflexivity.
Defined.

End DispatcherMore.

(** ** The shell and the command table, further properties *)

Module ShellMore.
Import Channel Sample More MoreSample.

(** *** Pieces of a split *)

Lemma Split_pieces_free (s : string) (sep : ascii) :
  Forall (fun w => existsb (fun c => Ascii.eqb c sep) (list_ascii_of_string w) = false)
    (Go.Split s sep).
Proof.
  induction s as [|c s IH]; cbn.
  - repeat constructor.
  - destruct (Ascii.eqb c sep) eqn:Hc.
    + constructor; [reflexivity | exact IH].
    + destruct (Go.Split s sep) as [|w ws].
      * repeat constructor. cbn. now rewrite Hc.
      * inversion IH as [|? ? Hw Hws]; subst.
        constructor; [|exact Hws]. cbn. now rewrite Hc.
Qed.

Lemma last_Forall {A : Type} (P : A -> Prop) (l : list A) (d : A) :
  Forall P l -> P d -> P (List.last l d).
Proof.
  intros Hl Hd. induction Hl as [|x l Hx Hl IH]; [exact Hd|].
  destruct l; [exact Hx | exact IH].
Qed.

Lemma Base_shape (path : string) :
  Go.Base path = "/" \/ (Go.Base path <> "" /\ has_slash (Go.Base path) = false).
Proof.
  unfold Go.Base. destruct (String.eqb path ""); [right; split; [discriminate | reflexivity]|].
  cbv zeta.
  destruct (String.eqb (List.last (Go.Split (Go.strip_trailing_slashes path) "/") "") "")
    eqn:He; [now left|].
  right. split.
  - intros Heq. rewrite Heq in He. discriminate.
  - unfold has_slash. apply (last_Forall
      (fun w => existsb (fun c => Ascii.eqb c "/") (list_ascii_of_string w) = false)).
    + apply Split_pieces_free.
    + reflexivity.
Qed.

Lemma SplitN2_length (s : string) (sep : ascii) :
  (length (Go.SplitN2 s sep) <= 2)%nat.
Proof.
  induction s as [|c s IH]; cbn; [lia|].
  destruct (Ascii.eqb c sep); cbn; [lia|].
  destruct (Go.SplitN2 s sep); cbn in *; lia.
Qed.

Section Facts.

Variable Chdir : string -> System -> option System.
Variable funcMap : gmap string Command.

Local Abbreviation shell_round := (Channel.shell_round Chdir funcMap).

(** *** The command table *)

(** Registration and lookup: a command is found under the base name of
    the path it is called by and under no other name, and a later
    registration under the same name takes the place of the earlier one. *)
Theorem registered_command_found_by_base_name
    (name path : string) (cmd cmd' : Command) (args : list string) (sys : System) :
  Exec (RegisterCommand name cmd funcMap) path args sys =
    (if String.eqb name (Go.Base path) then
       match cmd args sys with
       | Some (res, sys') => ExecOk res sys'
       | None => ExecPanic
       end
     else Exec funcMap path args sys) /\
  RegisterCommand name cmd' (RegisterCommand name cmd funcMap) =
    RegisterCommand name cmd' funcMap.
Proof.
  unfold RegisterCommand, Exec. cbv zeta. split.
  - destruct (String.eqb_spec name (Go.Base path)) as [->|Hne].
    + now rewrite lookup_insert_eq.
    + now rewrite lookup_insert_ne.
  - apply insert_insert_eq.
Qed.

(** A command registered under a name with a slash in it (other than
    the name "/") or under the empty name can never be run: every path is
    reduced to its base name before the lookup. *)
Theorem command_with_directory_in_name_is_unreachable
    (name path : string) (cmd : Command) (args : list string) (sys : System) :
  (has_slash name && negb (String.eqb name "/")) || String.eqb name "" = true ->
  Exec (RegisterCommand name cmd funcMap) path args sys = Exec funcMap path args sys.
Proof.
  intros Hname. unfold RegisterCommand, Exec. cbv zeta.
  rewrite lookup_insert_ne; [reflexivity|].
  intros ->.
  destruct (Base_shape path) as [Heq | [Hne Hfree]].
  - rewrite Heq in Hname. discriminate.
  - rewrite Hfree in Hname. cbn in Hname.
    apply String.eqb_eq in Hname. contradiction.
Qed.

(** *** The shell loop *)

Lemma prefix_cd_not_export (cmd : string) :
  Go.HasPrefix cmd "cd" = true -> Go.HasPrefix cmd "export" = false.
Proof.
  unfold Go.HasPrefix. intros H. destruct cmd as [|a cmd]; [discriminate H|].
  cbn [String.prefix] in *.
  destruct (Ascii.ascii_dec "c" a) as [<-|]; [|discriminate H].
  destruct (Ascii.ascii_dec "e" "c") as [Hec|]; [discriminate Hec | reflexivity].
Qed.

Lemma quit_words_not_prefixed (cmd : string) :
  String.eqb cmd "logout" || String.eqb cmd "quit" = true ->
  Go.HasPrefix cmd "cd" = false /\ Go.HasPrefix cmd "export" = false.
Proof.
  intros H. apply orb_true_iff in H as [H|H]; apply String.eqb_eq in H; subst;
    split; reflexivity.
Qed.

(** A line whose trimmed form begins with export changes nothing: the
    shell goes back to reading, no variable is set, nothing is written
    and no command is looked up. *)
Theorem export_line_changes_nothing
    (id : nat) (shobj : Shell) (line : string) (st : state) :
  Go.HasPrefix (Go.TrimSpace line) "export" = true ->
  shell_round id shobj (Line line) st = st.
Proof.
  intros Hexport. unfold Channel.shell_round. cbv zeta.
  destruct (String.eqb (Go.TrimSpace (Go.TrimSpace line)) ""); [reflexivity|].
  destruct (String.eqb (Go.TrimSpace line) "logout" || String.eqb (Go.TrimSpace line) "quit")
    eqn:Hquit.
  { apply quit_words_not_prefixed in Hquit as [_ Hq]. congruence. }
  destruct (Go.HasPrefix (Go.TrimSpace line) "cd") eqn:Hcd.
  { apply prefix_cd_not_export in Hcd. congruence. }
  now rewrite Hexport.
Qed.

(** A line whose trimmed form begins with cd is taken for the cd
    builtin, also when cd is only the beginning of its first word: no
    command is looked up for it, the quit signal is not written and the
    shell goes on reading. *)
Theorem cd_prefixed_line_never_runs_a_command
    (id p : nat) (line : string) (sys : System) (st : state) :
  Go.HasPrefix (Go.TrimSpace line) "cd" = true ->
  systems st !! p = Some sys ->
  let st' := shell_round id (mkShell p Reading) (Line line) st in
  count is_command_table (trace st') = count is_command_table (trace st) /\
  count is_quit_send (trace st') = count is_quit_send (trace st) /\
  shells st' = shells st /\
  quitSignal st' = quitSignal st.
Proof.
  intros Hcd Hp. unfold Channel.shell_round. cbv zeta.
  destruct (String.eqb (Go.TrimSpace (Go.TrimSpace line)) ""); [repeat split|].
  destruct (String.eqb (Go.TrimSpace line) "logout" || String.eqb (Go.TrimSpace line) "quit")
    eqn:Hquit.
  { apply quit_words_not_prefixed in Hquit as [Hq _]. congruence. }
  rewrite Hcd. cbn [sh_sys]. rewrite Hp.
  destruct (Go.from1 (Go.Split (Go.TrimSpace line) " ")) as [|arg1 rest]; [repeat split|].
  destruct (Chdir arg1 sys); cbn;
    rewrite ?ChannelFacts.count_app, ?ChannelFacts.count_cons, ?ChannelFacts.count_nil;
    cbn; repeat split; lia.
Qed.

Lemma appended_refl (st : state) :
  exists es, trace st = trace st ++ es /\ Forall one_argument es.
Proof. exists []. split; [now rewrite app_nil_r | constructor]. Qed.

Lemma appended_shell_send (id : nat) (n : Z) (st st1 : state) (es : list effect) :
  trace st1 = trace st ++ es ->
  Forall one_argument es ->
  exists es', trace (shell_send id n st1) = trace st ++ es' /\ Forall one_argument es'.
Proof.
  intros Htr Hes. unfold shell_send. destruct (quitSignal st1); cbn;
    rewrite (proj1 (ChannelFacts.set_shell_status_proj _ _ _)); cbn; rewrite Htr.
  - now exists es.
  - exists (es ++ [QuitSend (ByShell id) n]). rewrite <- app_assoc. split; [reflexivity|].
    apply Forall_app. split; [exact Hes|]. repeat constructor.
Qed.

(** In the shell loop a command gets at most one argument, the rest of
    the line after the first space, however many words follow. *)
Theorem shell_passes_at_most_one_argument
    (id : nat) (shobj : Shell) (r : ReadResult) (st : state) :
  exists es,
    trace (shell_round id shobj r st) = trace st ++ es /\
    Forall one_argument es.
Proof.
  assert (Hargs : forall cmd,
            (length (Go.from1 (Go.SplitN2 cmd " ")) <= 1)%nat).
  { intros cmd. pose proof (SplitN2_length cmd " ") as Hlen.
    unfold Go.from1. destruct (Go.SplitN2 cmd " "); cbn in *; lia. }
  assert (Hnil : forall n, exists es',
            trace (shell_send id n st) = trace st ++ es' /\ Forall one_argument es').
  { intros n. apply (appended_shell_send id n st st []); [now rewrite app_nil_r | constructor]. }
  unfold Channel.shell_round.
  repeat case_match;
    try apply appended_refl;
    try apply Hnil;
    try (rewrite (proj1 (ChannelFacts.set_shell_status_proj _ _ _)); apply appended_refl).
  all: try match goal with
           | |- exists es, trace (shell_send _ _ (emit ?e ?s)) = _ /\ _ =>
               apply (appended_shell_send _ _ s _ e); [reflexivity|];
               repeat first [apply Forall_nil_2 | apply Forall_cons_2]; cbn; apply Hargs
           end.
  all: first
    [ exists []; split; [cbn; symmetry; apply app_nil_r | constructor]
    | eexists; cbn; rewrite <- ?app_assoc; (split; [reflexivity|]);
      repeat first [apply Forall_nil_2 | apply Forall_cons_2]; cbn; try exact I;
      apply Hargs ].
Qed.

End Facts.

Section Steps.

Variable cfg : Config.
Variable user : string.
Variable NewSystem : string -> string -> Z -> Z -> System.
Variable Chdir : string -> System -> option System.
Variable funcMap : gmap string Command.

Local Abbreviation step := (Channel.step cfg user NewSystem Chdir funcMap).

(** A read error other than the end of input ends the shell without a
    word to the dispatcher: nothing is written to the quit signal or to
    the client, and the shell takes no further step. *)
Theorem read_error_ends_shell_silently
    (id p : nat) (message : string) (st : state) :
  crashed st = false ->
  shells st !! id = Some (mkShell p Reading) ->
  exists st',
    step st (EvShellRead id (ReadError message)) = Some st' /\
    trace st' = trace st /\
    quitSignal st' = quitSignal st /\
    shells st' !! id = Some (mkShell p Finished) /\
    (forall r, step st' (EvShellRead id r) = None) /\
    step st' (EvShellSend id) = None.
Proof.
  intros Hlive Hid. unfold Channel.step at 1. rewrite Hlive, Hid.
  eexists. split; [reflexivity|]. cbn [Channel.shell_round].
  destruct (ChannelFacts.set_shell_status_proj id Finished st) as (Htr & Hd & Hq & _).
  pose proof (ChannelFacts.set_shell_status_same id p Reading Finished st Hid) as Hfin.
  assert (Hcr : crashed (set_shell_status id Finished st) = crashed st).
  { unfold crashed. now rewrite Hd. }
  repeat split; try assumption.
  - intros r. unfold Channel.step. rewrite Hcr, Hlive, Hfin. reflexivity.
  - unfold Channel.step. rewrite Hcr, Hlive, Hfin. reflexivity.
Qed.

End Steps.

Lemma unreachable_command_witness :
  Exec (RegisterCommand "/bin/ls" ls commands) "/bin/ls" ["-l"] (new_system "root" "spr" 80 24) =
  Exec commands "/bin/ls" ["-l"] (new_system "root" "spr" 80 24).
Proof.
  apply (command_with_directory_in_name_is_unreachable commands "/bin/ls" "/bin/ls" ls).
  reflexivity.
Defined.

Lemma export_line_witness :
  Channel.shell_round chdir commands 0 (mkShell 0 Reading) (Line "  export FOO=bar ")
    st_running = st_running.
Proof.
  apply (export_line_changes_nothing chdir commands 0%nat (mkShell 0 Reading)
           "  export FOO=bar " st_running). reflexivity.
Defined.

Lemma cd_prefixed_line_witness :
  let st' := Channel.shell_round chdir (RegisterCommand "cdrecord" ls commands) 0
               (mkShell 0 Reading) (Line "cdrecord /dev/sr0") st_running in
  count is_command_table (trace st') = count is_command_table (trace st_running) /\
  count is_quit_send (trace st') = count is_quit_send (trace st_running) /\
  shells st' = shells st_running /\
  quitSignal st' = quitSignal st_running.
Proof.
  apply (cd_prefixed_line_never_runs_a_command chdir
           (RegisterCommand "cdrecord" ls commands) 0%nat 0%nat "cdrecord /dev/sr0"
           (new_system "root" "spr" 80 24) st_running); reflexivity.
Defined.

Example shell_and_exec_split_differently :
  option_map trace (run_root [ev shell_req; EvShellStart 0;
                              EvShellRead 0 (Line "ls -l /tmp");
                              ev (exec_req "ls -l /tmp")]) =
  Some [NewSystemCall 0 80 24; GoShell 0 UMLHook; Reply true;
        CommandTable "ls" ["-l /tmp"];
        CommandTable "ls" ["-l"; "/tmp"]; QuitSend ByDispatcher 0; Reply true].
Proof. vm_compute. reflexivity. Qed.

Lemma read_error_witness :
  exists st',
    step_root st_running (EvShellRead 0 (ReadError "connection reset")) = Some st' /\
    trace st' = trace st_running /\
    quitSignal st' = quitSignal st_running /\
    shells st' !! 0%nat = Some (mkShell 0 Finished) /\
    (forall r, Channel.step cfg_retry "root" new_system chdir commands st'
                 (EvShellRead 0 r) = None) /\
    Channel.step cfg_retry "root" new_system chdir commands st' (EvShellSend 0) = None.
Proof.
  apply (read_error_ends_shell_silently cfg_retry "root" new_system chdir commands
           0%nat 0%nat "connection reset" st_running); reflexivity.
Defined.

End ShellMore.

(** ** Whole sessions *)

Module SessionMore.
Import Channel Sample More MoreSample.

Section Facts.

Variable cfg : Config.
Variable user : string.
Variable NewSystem : string -> string -> Z -> Z -> System.
Variable Chdir : string -> System -> option System.
Variable funcMap : gmap string Command.

Local Abbreviation dispatch := (Channel.dispatch cfg user NewSystem funcMap).
Local Abbreviation step := (Channel.step cfg user NewSystem Chdir funcMap).
Local Abbreviation run := (Channel.run cfg user NewSystem Chdir funcMap).
Local Abbreviation shell_round := (Channel.shell_round Chdir funcMap).

Lemma graceful_round (id : nat) (shobj : Shell) (r : ReadResult) (st : state) :
  ends_gracefully r = true ->
  shell_round id shobj r st = shell_send id 0 st.
Proof.
  destruct r as [line| |m]; cbn [ends_gracefully]; [|reflexivity|discriminate].
  intros Hq. unfold Channel.shell_round. cbv zeta. rewrite Hq.
  assert (Hblank : String.eqb (Go.TrimSpace (Go.TrimSpace line)) "" = false).
  { apply orb_true_iff in Hq as [Hq|Hq]; apply String.eqb_eq in Hq; rewrite Hq;
      reflexivity. }
  now rewrite Hblank.
Qed.

(** The ordinary interactive session on a new channel: pty-req, shell,
    and then the end of input or a line that trims to logout or quit.
    Both requests are answered with success, one context of the requested
    size and one shell are created, the shell signals 0, and the
    dispatcher sends exit status 0, closes the channel and returns. *)
Theorem interactive_session_ends_with_status_zero
    (sys : list System) (p : option nat) (term : string)
    (pty shell : Request) (ptyreq : ptyRequest) (r : ReadResult) :
  ReqType pty = "pty-req" ->
  Wire.Unmarshal ptyRequest_fields (Payload pty) ptyRequest_zero = (ptyreq, true) ->
  ReqType shell = "shell" ->
  ends_gracefully r = true ->
  exists st,
    run (fresh sys p term)
      [EvRequest (Some pty); EvRequest (Some shell); EvShellStart 0;
       EvShellRead 0 r; EvQuit] = Some st /\
    trace st =
      [NewSystemCall (length sys) (pty_Width ptyreq) (pty_Height ptyreq); Reply true;
       GoShell 0 (select_hook cfg); Reply true;
       QuitSend (ByShell 0) 0; ExitStatus 0; CloseChannel] /\
    disp st = Returned /\
    quitSignal st = None /\
    s_term st = pty_Term ptyreq /\
    shells st = [mkShell (length sys) Finished].
Proof.
  intros Hpty Hdec Hshell Hend.
  pose (w := pty_Width ptyreq). pose (h := pty_Height ptyreq).
  pose (systems1 := sys ++ [NewSystem user (hostname cfg) w h]).
  pose (tr1 := [NewSystemCall (length sys) w h; Reply true]).
  pose (tr2 := tr1 ++ [GoShell 0 (select_hook cfg); Reply true]).
  pose (st1 := mkState systems1 (Some (length sys)) (pty_Term ptyreq) None [] None
                 Selecting tr1).
  pose (st2 := mkState systems1 (Some (length sys)) (pty_Term ptyreq) (Some 0%nat)
                 [mkShell (length sys) Spawned] None Selecting tr2).
  pose (st3 := mkState systems1 (Some (length sys)) (pty_Term ptyreq) (Some 0%nat)
                 [mkShell (length sys) Reading] None Selecting tr2).
  pose (st4 := mkState systems1 (Some (length sys)) (pty_Term ptyreq) (Some 0%nat)
                 [mkShell (length sys) Finished] (Some 0) Selecting
                 (tr2 ++ [QuitSend (ByShell 0) 0])).
  assert (H1 : step (fresh sys p term) (EvRequest (Some pty)) = Some st1).
  { rewrite ChannelFacts.step_request by reflexivity.
    rewrite (ChannelFacts.dispatch_pty_req _ _ _ _ _ _ Hpty).
    unfold Channel.on_pty_req. now rewrite Hdec. }
  assert (H2 : step st1 (EvRequest (Some shell)) = Some st2).
  { rewrite ChannelFacts.step_request by reflexivity.
    now rewrite (ChannelFacts.dispatch_shell _ _ _ _ _ _ Hshell). }
  assert (H3 : step st2 (EvShellStart 0) = Some st3) by reflexivity.
  assert (H4 : step st3 (EvShellRead 0 r) = Some st4).
  { transitivity (Some (shell_round 0 (mkShell (length sys) Reading) r st3));
      [reflexivity|].
    now rewrite (graceful_round _ _ _ _ Hend). }
  eexists. cbn [Channel.run]. rewrite H1, H2, H3, H4.
  split; [reflexivity|]. repeat split.
Qed.

(** A pty-req that follows a shell request moves the session to a new
    context and leaves the shell on the old one, which is unchanged: the
    session and the shell no longer share a system. *)
Theorem pty_req_after_shell_splits_contexts
    (sys : list System) (p : option nat) (term : string) (evs : list event)
    (st : state) (req : Request) (ptyreq : ptyRequest) (id : nat) (shobj : Shell) :
  in_range (length sys) p ->
  run (fresh sys p term) evs = Some st ->
  ReqType req = "pty-req" ->
  Wire.Unmarshal ptyRequest_fields (Payload req) ptyRequest_zero = (ptyreq, true) ->
  shells st !! id = Some shobj ->
  shells (dispatch req st) !! id = Some shobj /\
  s_sys (dispatch req st) <> Some (sh_sys shobj) /\
  systems (dispatch req st) !! sh_sys shobj = systems st !! sh_sys shobj.
Proof.
  intros Hp Hrun Hty Hdec Hid.
  pose proof (DispatcherMore.pointers_stay_in_range cfg user NewSystem Chdir funcMap
                sys p term evs st Hp Hrun) as (_ & Hshells & _).
  rewrite Forall_lookup in Hshells. pose proof (Hshells id shobj Hid) as Hlt.
  rewrite (ChannelFacts.dispatch_pty_req _ _ _ _ _ _ Hty).
  destruct (ChannelFacts.on_pty_req_ok cfg user NewSystem req st ptyreq Hdec)
    as (Hs & _ & Hsys & _).
  rewrite Hs, Hsys. repeat split.
  - unfold Channel.on_pty_req. rewrite Hdec. cbn. exact Hid.
  - intros [= Heq]. lia.
  - now apply lookup_app_l.
Qed.

End Facts.

Lemma interactive_session_witness :
  exists st,
    Channel.run cfg_retry "root" new_system chdir commands (fresh [] None "")
      [EvRequest (Some (pty_req 132 43)); EvRequest (Some shell_req); EvShellStart 0;
       EvShellRead 0 (Line " logout "); EvQuit] = Some st /\
    trace st =
      [NewSystemCall (length (@nil System)) (pty_Width (mkPtyRequest "xterm" 132 43 0 0 ""))
         (pty_Height (mkPtyRequest "xterm" 132 43 0 0 "")); Reply true;
       GoShell 0 (select_hook cfg_retry); Reply true;
       QuitSend (ByShell 0) 0; ExitStatus 0; CloseChannel] /\
    disp st = Returned /\
    quitSignal st = None /\
    s_term st = pty_Term (mkPtyRequest "xterm" 132 43 0 0 "") /\
    shells st = [mkShell (length (@nil System)) Finished].
Proof.
  apply (interactive_session_ends_with_status_zero cfg_retry "root" new_system chdir commands
           [] None "" (pty_req 132 43) shell_req (mkPtyRequest "xterm" 132 43 0 0 "")
           (Line " logout ")); vm_compute; reflexivity.
Defined.

Lemma pty_req_after_shell_witness :
  shells (dispatch_root (pty_req 132 43) st_running) !! 0%nat = Some (mkShell 0 Reading) /\
  s_sys (dispatch_root (pty_req 132 43) st_running) <> Some (sh_sys (mkShell 0 Reading)) /\
  systems (dispatch_root (pty_req 132 43) st_running) !! sh_sys (mkShell 0 Reading) =
    systems st_running !! sh_sys (mkShell 0 Reading).
Proof.
  apply (pty_req_after_shell_splits_contexts cfg_retry "root" new_system chdir commands
           [] None "" [ev shell_req; EvShellStart 0] st_running (pty_req 132 43)
           (mkPtyRequest "xterm" 132 43 0 0 "") 0%nat (mkShell 0 Reading));
    first [exact I | vm_compute; reflexivity].
Defined.

End SessionMore.
